(** * cyttsp4_spi: register transport of the Cypress TrueTouch V4 SPI driver

    A shallow embedding of [drivers/input/touchscreen/cyttsp4/cyttsp4_spi.c].
    The driver functions are written as programs over the primitives they
    call in the kernel ([spi_sync], [mutex_lock], [mutex_unlock],
    [pm_runtime_get_noresume], [pm_runtime_put_noidle]).  A program is a
    finite tree: the driver has no loops.  The same programs are run by a
    sequential interpreter and by an interleaving semantics of threads.
    Logging ([dev_dbg], [dev_vdbg], [dev_err], [_cyttsp4_spi_pr_buf]) has
    no effect on what the functions return or send and is left out. *)

From stdpp Require Import base numbers list.
From Stdlib Require Import ZArith Lia.

Local Open Scope Z_scope.

(** ** Integer types of the C source *)

(** Conversion to [u8] (parameters [op], [reg], [addr]). *)
Definition to_u8 (z : Z) : Z := z mod 256.

(** Conversion to [int] (32 bits, two's complement, wrapping). *)
Definition to_int (z : Z) : Z := (z + 2 ^ 31) mod 2 ^ 32 - 2 ^ 31.

(** Conversion to [unsigned] (the [len] field of [struct spi_transfer]). *)
Definition to_unsigned (z : Z) : Z := z mod 2 ^ 32.

Definition INT_MIN : Z := - 2 ^ 31.
Definition INT_MAX : Z := 2 ^ 31 - 1.

(** [size_t] is as wide as [long]: 32 bits on the ARM target of this tree,
    64 bits on a 64-bit build.  The width is kept abstract. *)
Class arch := {
  BITS_PER_LONG : Z;
  BITS_PER_LONG_min : 32 <= BITS_PER_LONG
}.

Definition to_size_t `{arch} (z : Z) : Z := z mod 2 ^ BITS_PER_LONG.

(** ** Constants *)

Definition CY_SPI_WR_OP : Z := 0x00.
Definition CY_SPI_RD_OP : Z := 0x01.
Definition CY_SPI_A8_BIT : Z := 0x02.
Definition CY_SPI_WR_HEADER_BYTES : Z := 2.
Definition CY_SPI_RD_HEADER_BYTES : Z := 1.
Definition CY_SPI_SYNC_BYTE : nat := 0.
Definition CY_SPI_SYNC_ACK : Z := 0x62.
Definition CY_SPI_DATA_SIZE : Z := 3 * 256.
Definition CY_SPI_MAX_REG : Z := 512.
Definition CY_SPI_MAX_HEADER_BYTES : Z :=
  Z.max CY_SPI_WR_HEADER_BYTES CY_SPI_RD_HEADER_BYTES.

(** Error numbers of [<asm-generic/errno-base.h>]. *)
Definition EIO : Z := 5.
Definition EINVAL : Z := 22.

(** ** SPI messages *)

(** The two places the driver lets the controller store received bytes:
    the local [rd_hdr_buf] and the caller's buffer [buf]. *)
Inductive rx_target : Type := rd_hdr_buf | data_buf.

Definition rx_target_eqb (a b : rx_target) : bool :=
  match a, b with
  | rd_hdr_buf, rd_hdr_buf | data_buf, data_buf => true
  | _, _ => false
  end.

(** [struct spi_transfer]: a [NULL] pointer is [None]; a transmit buffer
    is the bytes found at the pointer. *)
Record spi_transfer : Type := {
  tx_buf : option (list Z);
  rx_buf : option rx_target;
  len : Z
}.

(** [struct spi_message]: the chained transfers, in order. *)
Definition spi_message : Type := list spi_transfer.

(** What [spi_sync] hands back: its return code and, for every transfer of
    the message, the bytes clocked in during that transfer. *)
Record spi_reply : Type := {
  sync_rc : Z;
  rx_bytes : list (list Z)
}.

(** The bytes a transfer puts on the wire: the first [len] bytes at
    [tx_buf]. *)
Definition wire_bytes (t : spi_transfer) : option (list Z) :=
  take (Z.to_nat (len t)) <$> tx_buf t.

(** Overwrite the start of [dst] with [src]. *)
Definition blit (src dst : list Z) : list Z :=
  src ++ drop (List.length src) dst.

(** The content of the buffer [target] after the message has been
    exchanged: every transfer whose [rx_buf] points to it stores at most
    [len] received bytes, as [u8], at its start. *)
Fixpoint store_rx (target : rx_target) (msg : spi_message)
    (rx : list (list Z)) (dst : list Z) : list Z :=
  match msg with
  | [] => dst
  | t :: msg' =>
      let dst' :=
        match rx_buf t with
        | Some tg =>
            if rx_target_eqb tg target
            then blit (to_u8 <$> take (Z.to_nat (len t)) (hd [] rx)) dst
            else dst
        | None => dst
        end in
      store_rx target msg' (tl rx) dst'
  end.

(** ** Programs *)

(** A program returns a value or calls one of the kernel primitives and
    goes on; after [spi_sync] it goes on from the reply. *)
Inductive prog (A : Type) : Type :=
| Ret (a : A)
| SpiSync (msg : spi_message) (k : spi_reply -> prog A)
| MutexLock (k : prog A)
| MutexUnlock (k : prog A)
| PmRuntimeGetNoresume (k : prog A)
| PmRuntimePutNoidle (k : prog A).

Arguments Ret {A} a.
Arguments SpiSync {A} msg k.
Arguments MutexLock {A} k.
Arguments MutexUnlock {A} k.
Arguments PmRuntimeGetNoresume {A} k.
Arguments PmRuntimePutNoidle {A} k.

Fixpoint bind {A B : Type} (p : prog A) (f : A -> prog B) : prog B :=
  match p with
  | Ret a => f a
  | SpiSync msg k => SpiSync msg (fun r => bind (k r) f)
  | MutexLock k => MutexLock (bind k f)
  | MutexUnlock k => MutexUnlock (bind k f)
  | PmRuntimeGetNoresume k => PmRuntimeGetNoresume (bind k f)
  | PmRuntimePutNoidle k => PmRuntimePutNoidle (bind k f)
  end.

Definition spi_sync (msg : spi_message) : prog spi_reply := SpiSync msg Ret.
Definition mutex_lock : prog unit := MutexLock (Ret tt).
Definition mutex_unlock : prog unit := MutexUnlock (Ret tt).
Definition pm_runtime_get_noresume : prog unit := PmRuntimeGetNoresume (Ret tt).
Definition pm_runtime_put_noidle : prog unit := PmRuntimePutNoidle (Ret tt).

Global Instance prog_ret : MRet prog := fun _ a => Ret a.
Global Instance prog_bind : MBind prog := fun _ _ f p => bind p f.

(** ** The driver *)

(** A buffer argument: [None] is the [NULL] pointer, [Some l] a pointer to
    memory that holds [l]. *)
Definition buffer : Type := option (list Z).

(** The sync byte found in [rd_hdr_buf] (zeroed by [memset] before the
    exchange) once the message has been exchanged. *)
Definition rd_hdr_sync (msg : spi_message) (reply : spi_reply) : Z :=
  nth CY_SPI_SYNC_BYTE
    (store_rx rd_hdr_buf msg (rx_bytes reply)
       (replicate (Z.to_nat CY_SPI_MAX_HEADER_BYTES) 0)) 0.

(** The part of [cyttsp4_spi_xfer] after the [switch]: [spi_sync], whose
    negative return code is only logged, then the ACK check.  The value is
    the return code and the caller's buffer as the exchange left it. *)
Definition cyttsp4_spi_xfer_sync (msg : spi_message) (buf : buffer)
    : prog (Z * buffer) :=
  reply ← spi_sync msg;
  let rc := sync_rc reply in
  let buf := store_rx data_buf msg (rx_bytes reply) <$> buf in
  if negb (rd_hdr_sync msg reply =? CY_SPI_SYNC_ACK)
  then let rc := 1 in Ret (rc, buf)
  else let rc := 0 in Ret (rc, buf).

(** [int cyttsp4_spi_xfer(u8 op, struct cyttsp4_spi *ts, u8 reg, u8 *buf,
    int length)].  As in a C call, an argument is converted to the type of
    its parameter on entry: [op] and [reg] to [u8], [length] to [int]. *)
Definition cyttsp4_spi_xfer (op reg : Z) (buf : buffer) (length : Z)
    : prog (Z * buffer) :=
  let op := to_u8 op in
  let reg := to_u8 reg in
  let length := to_int length in
  let wr_hdr_buf := replicate (Z.to_nat CY_SPI_MAX_HEADER_BYTES) 0 in
  if op =? CY_SPI_WR_OP then
    if to_int (length + CY_SPI_WR_HEADER_BYTES) >? CY_SPI_DATA_SIZE
    then Ret (- EINVAL, buf)
    else
      (* Header byte 0 *)
      let wr_hdr_buf :=
        if reg >? 255
        then <[0%nat := to_u8 (CY_SPI_WR_OP + CY_SPI_A8_BIT)]> wr_hdr_buf
        else <[0%nat := CY_SPI_WR_OP]> wr_hdr_buf in
      (* Header byte 1 *)
      let wr_hdr_buf := <[1%nat := to_u8 (reg mod 256)]> wr_hdr_buf in
      let xfer0 := {| tx_buf := Some wr_hdr_buf;
                      rx_buf := Some rd_hdr_buf;
                      len := CY_SPI_WR_HEADER_BYTES |} in
      match buf with
      | Some b =>
          let xfer1 := {| tx_buf := Some b;
                          rx_buf := None;
                          len := to_unsigned length |} in
          cyttsp4_spi_xfer_sync [xfer0; xfer1] buf
      | None => cyttsp4_spi_xfer_sync [xfer0] buf
      end
  else if op =? CY_SPI_RD_OP then
    match buf with
    | None => Ret (- EINVAL, buf)
    | Some _ =>
        if to_int (length + CY_SPI_RD_HEADER_BYTES) >? CY_SPI_DATA_SIZE
        then Ret (- EINVAL, buf)
        else
          (* Header byte 0 *)
          let wr_hdr_buf := <[0%nat := CY_SPI_RD_OP]> wr_hdr_buf in
          let xfer0 := {| tx_buf := Some wr_hdr_buf;
                          rx_buf := Some rd_hdr_buf;
                          len := CY_SPI_RD_HEADER_BYTES |} in
          let xfer1 := {| tx_buf := None;
                          rx_buf := Some data_buf;
                          len := to_unsigned length |} in
          cyttsp4_spi_xfer_sync [xfer0; xfer1] buf
    end
  else Ret (- EINVAL, buf).

(** [s32 cyttsp4_spi_read_block_data(struct cyttsp4_spi *ts, u8 addr,
    size_t length, void *data)]; the value carries the buffer as the call
    left it. *)
Definition cyttsp4_spi_read_block_data `{arch} (addr length : Z)
    (data : buffer) : prog (Z * buffer) :=
  let addr := to_u8 addr in
  let length := to_size_t length in
  (* Write address *)
  '(rc, _) ← cyttsp4_spi_xfer CY_SPI_WR_OP addr None 0;
  if rc <? 0 then Ret (rc, data)
  else
    (* Read data *)
    '(rc, data) ← cyttsp4_spi_xfer CY_SPI_RD_OP addr data length;
    if rc <? 0 then Ret (rc, data)
    else if rc >? 0 then Ret (- EIO, data)
    else Ret (rc, data).

(** [s32 cyttsp4_spi_write_block_data(struct cyttsp4_spi *ts, u8 addr,
    size_t length, const void *data)]. *)
Definition cyttsp4_spi_write_block_data `{arch} (addr length : Z)
    (data : buffer) : prog Z :=
  let addr := to_u8 addr in
  let length := to_size_t length in
  '(rc, _) ← cyttsp4_spi_xfer CY_SPI_WR_OP addr data length;
  if rc <? 0 then Ret rc
  else if rc >? 0 then Ret (- EIO)
  else Ret rc.

(** The two operations registered in [struct cyttsp4_ops]:
    [int cyttsp4_spi_write(struct cyttsp4_adapter *adap, u8 addr,
    const void *buf, int size)] and [cyttsp4_spi_read], of the same
    shape. *)
Definition cyttsp4_spi_write `{arch} (addr : Z) (buf : buffer) (size : Z)
    : prog Z :=
  let addr := to_u8 addr in
  let size := to_int size in
  pm_runtime_get_noresume ;;
  mutex_lock ;;
  rc ← cyttsp4_spi_write_block_data addr size buf;
  mutex_unlock ;;
  pm_runtime_put_noidle ;;
  Ret rc.

Definition cyttsp4_spi_read `{arch} (addr : Z) (buf : buffer) (size : Z)
    : prog (Z * buffer) :=
  let addr := to_u8 addr in
  let size := to_int size in
  pm_runtime_get_noresume ;;
  mutex_lock ;;
  '(rc, buf) ← cyttsp4_spi_read_block_data addr size buf;
  mutex_unlock ;;
  pm_runtime_put_noidle ;;
  Ret (rc, buf).

(** ** Sequential execution *)

(** What a call does to the outside, in order. *)
Inductive event : Type :=
| EvPmGet
| EvLock
| EvSync (msg : spi_message) (reply : spi_reply)
| EvUnlock
| EvPmPut.

(** The device instance: the bus behind [ts->client], the state of
    [ts->lock] and the runtime-PM usage counter of [adap->dev]. *)
Record device (B : Type) : Type := {
  bus : B;
  locked : bool;
  usage_count : Z
}.
Arguments bus {B} d.
Arguments locked {B} d.
Arguments usage_count {B} d.

Definition set_bus {B} (b : B) (d : device B) : device B :=
  {| bus := b; locked := locked d; usage_count := usage_count d |}.
Definition set_locked {B} (l : bool) (d : device B) : device B :=
  {| bus := bus d; locked := l; usage_count := usage_count d |}.
Definition set_usage_count {B} (n : Z) (d : device B) : device B :=
  {| bus := bus d; locked := locked d; usage_count := n |}.

(** [pm_runtime_get_noresume] is [atomic_inc] of the usage counter,
    [pm_runtime_put_noidle] is [atomic_add_unless (-1, 0)]. *)
Definition pm_get {B} (d : device B) : device B :=
  set_usage_count (usage_count d + 1) d.
Definition pm_put {B} (d : device B) : device B :=
  set_usage_count (if usage_count d =? 0 then 0 else usage_count d - 1) d.

(** The exchanges among the events of a call. *)
Fixpoint exchanges (evs : list event) : list (spi_message * spi_reply) :=
  match evs with
  | [] => []
  | EvSync msg reply :: evs' => (msg, reply) :: exchanges evs'
  | _ :: evs' => exchanges evs'
  end.

Section Run.
Context {B : Type}.

(** The bus controller behind [spi_sync]: any function of the bus state
    and the message. *)
Variable controller : B -> spi_message -> spi_reply * B.

Definition emit {A} (ev : event) (r : option (A * device B * list event))
    : option (A * device B * list event) :=
  '(a, d, evs) ← r; Some (a, d, ev :: evs).

(** One thread runs the program to its end.  [mutex_lock] on a mutex
    that is held never returns: the run has no result. *)
Fixpoint run {A} (p : prog A) (d : device B)
    : option (A * device B * list event) :=
  match p with
  | Ret a => Some (a, d, [])
  | SpiSync msg k =>
      let '(reply, b) := controller (bus d) msg in
      emit (EvSync msg reply) (run (k reply) (set_bus b d))
  | MutexLock k =>
      if locked d then None
      else emit EvLock (run k (set_locked true d))
  | MutexUnlock k => emit EvUnlock (run k (set_locked false d))
  | PmRuntimeGetNoresume k => emit EvPmGet (run k (pm_get d))
  | PmRuntimePutNoidle k => emit EvPmPut (run k (pm_put d))
  end.
End Run.

(** The value a run returned and the events it left. *)
Definition outcome {A B} (r : option (A * device B * list event)) : option A :=
  (fun x => x.1.1) <$> r.
Definition events_of {A B} (r : option (A * device B * list event))
    : list event :=
  default [] ((fun x => x.2) <$> r).

(** The first message a program hands to [spi_sync], and the bytes its
    first transfer puts on the wire. *)
Fixpoint first_message {A} (p : prog A) : option spi_message :=
  match p with
  | Ret _ => None
  | SpiSync msg _ => Some msg
  | MutexLock k | MutexUnlock k
  | PmRuntimeGetNoresume k | PmRuntimePutNoidle k => first_message k
  end.

Definition header_bytes {A} (p : prog A) : option (list Z) :=
  msg ← first_message p; hdr ← head msg; wire_bytes hdr.

(** A controller that plays back a script of replies; past the end of the
    script it fails with [-EIO] and receives nothing. *)
Definition scripted (script : list spi_reply) (msg : spi_message)
    : spi_reply * list spi_reply :=
  match script with
  | r :: script' => (r, script')
  | [] => ({| sync_rc := - EIO; rx_bytes := [] |}, [])
  end.

(** A controller made to return the code [rc] from every [spi_sync]. *)
Definition with_rc {B : Type} (rc : Z)
    (controller : B -> spi_message -> spi_reply * B)
    (b : B) (msg : spi_message) : spi_reply * B :=
  let '(reply, b') := controller b msg in
  ({| sync_rc := rc; rx_bytes := rx_bytes reply |}, b').

(** A reply whose header transfer received [sync] first. *)
Definition reply_with (rc sync : Z) (data : list Z) : spi_reply :=
  {| sync_rc := rc; rx_bytes := [[sync; 0]; data] |}.

Definition idle_device {B} (b : B) : device B :=
  {| bus := b; locked := false; usage_count := 0 |}.

(** The 32-bit ARM build. *)
Definition arm32 : arch.
Proof. refine {| BITS_PER_LONG := 32 |}. lia. Defined.

(** ** Concurrent execution *)

(** A thread is either running a program or inside [spi_sync]: its message
    has been handed to the controller and the reply is pending. *)
Inductive thread (A : Type) : Type :=
| Running (p : prog A)
| InFlight (msg : spi_message) (k : spi_reply -> prog A).
Arguments Running {A} p.
Arguments InFlight {A} msg k.

(** What a step of a thread does; an exchange takes two steps. *)
Inductive label : Type :=
| LPmGet
| LLock
| LBegin (msg : spi_message)
| LEnd (msg : spi_message) (reply : spi_reply)
| LUnlock
| LPmPut.

Section Threads.
Context {B A : Type}.
Variable controller : B -> spi_message -> spi_reply * B.

(** A step of one thread on the shared device.  [mutex_lock] can only
    step while the mutex is free. *)
Inductive thread_step
    : device B -> thread A -> label -> device B -> thread A -> Prop :=
| step_pm_get d k :
    thread_step d (Running (PmRuntimeGetNoresume k)) LPmGet
      (pm_get d) (Running k)
| step_pm_put d k :
    thread_step d (Running (PmRuntimePutNoidle k)) LPmPut
      (pm_put d) (Running k)
| step_lock d k :
    locked d = false ->
    thread_step d (Running (MutexLock k)) LLock
      (set_locked true d) (Running k)
| step_unlock d k :
    thread_step d (Running (MutexUnlock k)) LUnlock
      (set_locked false d) (Running k)
| step_begin d msg k :
    thread_step d (Running (SpiSync msg k)) (LBegin msg)
      d (InFlight msg k)
| step_end d msg k reply b :
    controller (bus d) msg = (reply, b) ->
    thread_step d (InFlight msg k) (LEnd msg reply)
      (set_bus b d) (Running (k reply)).

(** The threads sharing one device instance, and the device. *)
Definition config : Type := list (thread A) * device B.

(** Any thread that can step may be scheduled. *)
Inductive step : config -> nat * label -> config -> Prop :=
| step_at pool d i t l d' t' :
    pool !! i = Some t ->
    thread_step d t l d' t' ->
    step (pool, d) (i, l) (<[i := t']> pool, d').

Inductive steps : config -> list (nat * label) -> config -> Prop :=
| steps_nil c : steps c [] c
| steps_cons c x c' tr c'' :
    step c x c' -> steps c' tr c'' -> steps c (x :: tr) c''.
End Threads.

(** The holder of the mutex after a step, given the holder before it;
    [None] when the step is not allowed: locking a held mutex, unlocking
    a mutex held by someone else, touching the bus without the mutex. *)
Definition next_owner (owner : option nat) (x : nat * label)
    : option (option nat) :=
  let '(i, l) := x in
  match l with
  | LLock => match owner with None => Some (Some i) | Some _ => None end
  | LUnlock => if decide (owner = Some i) then Some None else None
  | LBegin _ | LEnd _ _ => if decide (owner = Some i) then Some owner else None
  | LPmGet | LPmPut => Some owner
  end.

(** A trace in which every exchange begins and ends in the hands of the
    thread that holds the mutex. *)
Fixpoint serialized (owner : option nat) (tr : list (nat * label)) : bool :=
  match tr with
  | [] => true
  | x :: tr' =>
      match next_owner owner x with
      | Some owner' => serialized owner' tr'
      | None => false
      end
  end.

(** [locking h h' p]: run with the mutex held by the thread iff [h], the
    program touches the bus only while it holds the mutex, never locks a
    mutex it holds nor unlocks one it does not hold, and every path to its
    end leaves the mutex held iff [h']. *)
Inductive locking {A : Type} : bool -> bool -> prog A -> Prop :=
| locking_ret h a : locking h h (Ret a)
| locking_sync h' msg k :
    (forall reply, locking true h' (k reply)) ->
    locking true h' (SpiSync msg k)
| locking_lock h' k : locking true h' k -> locking false h' (MutexLock k)
| locking_unlock h' k : locking false h' k -> locking true h' (MutexUnlock k)
| locking_pm_get h h' k :
    locking h h' k -> locking h h' (PmRuntimeGetNoresume k)
| locking_pm_put h h' k :
    locking h h' k -> locking h h' (PmRuntimePutNoidle k).

(** A thread that holds the mutex iff [h] and will have released it at
    its end. *)
Definition thread_ok {A : Type} (h : bool) (t : thread A) : Prop :=
  match t with
  | Running p => locking h false p
  | InFlight _ k => h = true /\ forall reply, locking true false (k reply)
  end.

(** The threads that use the device through the two operations the
    adapter registers, any number of times. *)
Inductive client `{arch} {A : Type} : prog A -> Prop :=
| client_ret a : client (Ret a)
| client_write addr buf size k :
    (forall rc, client (k rc)) ->
    client (cyttsp4_spi_write addr buf size ≫= k)
| client_read addr buf size k :
    (forall r, client (k r)) ->
    client (cyttsp4_spi_read addr buf size ≫= k).

(** Two controllers that differ at most in the return code of
    [spi_sync]. *)
Definition same_but_rc {B : Type}
    (c1 c2 : B -> spi_message -> spi_reply * B) : Prop :=
  forall b msg,
    rx_bytes (c1 b msg).1 = rx_bytes (c2 b msg).1 /\
    (c1 b msg).2 = (c2 b msg).2.

(** What the threads of a pool keep true together: the mutex is held iff
    it has an owner, the owner is the one thread that holds it, and every
    thread keeps the locking discipline. *)
Definition mutex_inv {B A : Type} (owner : option nat)
    (c : list (thread A) * device B) : Prop :=
  locked c.2 = match owner with Some _ => true | None => false end /\
  forall j t, c.1 !! j = Some t -> thread_ok (bool_decide (owner = Some j)) t.

(** The labels of the steps by which thread [i] makes the events of a
    run. *)
Fixpoint labels_of (i : nat) (evs : list event) : list (nat * label) :=
  match evs with
  | [] => []
  | EvPmGet :: evs' => (i, LPmGet) :: labels_of i evs'
  | EvLock :: evs' => (i, LLock) :: labels_of i evs'
  | EvSync msg reply :: evs' =>
      (i, LBegin msg) :: (i, LEnd msg reply) :: labels_of i evs'
  | EvUnlock :: evs' => (i, LUnlock) :: labels_of i evs'
  | EvPmPut :: evs' => (i, LPmPut) :: labels_of i evs'
  end.

(** The events of a list of exchanges. *)
Definition sync_events (xs : list (spi_message * spi_reply)) : list event :=
  map (fun x => EvSync x.1 x.2) xs.

(** ** The messages of the driver *)

(** The transfers [cyttsp4_spi_xfer] sets up, named for the statements
    below ([cyttsp4_spi_xfer_unfold] shows they are the ones it chains):
    the header and data transfers of [CY_SPI_WR_OP] for a register that
    fits [u8], and those of [CY_SPI_RD_OP]. *)
Definition wr_hdr_xfer (reg : Z) : spi_transfer :=
  {| tx_buf := Some [CY_SPI_WR_OP; to_u8 reg];
     rx_buf := Some rd_hdr_buf;
     len := CY_SPI_WR_HEADER_BYTES |}.

Definition wr_data_xfer (b : list Z) (length : Z) : spi_transfer :=
  {| tx_buf := Some b; rx_buf := None; len := to_unsigned length |}.

Definition rd_hdr_xfer : spi_transfer :=
  {| tx_buf := Some [CY_SPI_RD_OP; 0];
     rx_buf := Some rd_hdr_buf;
     len := CY_SPI_RD_HEADER_BYTES |}.

Definition rd_data_xfer (length : Z) : spi_transfer :=
  {| tx_buf := None; rx_buf := Some data_buf; len := to_unsigned length |}.

Definition wr_message (reg : Z) (buf : buffer) (length : Z) : spi_message :=
  wr_hdr_xfer reg ::
  match buf with
  | Some b => [wr_data_xfer b length]
  | None => []
  end.

Definition rd_message (length : Z) : spi_message :=
  [rd_hdr_xfer; rd_data_xfer length].

(** The device once a call has left: the usage counter went up and down
    around the locked section, the mutex is free again, the bus is [b]. *)
Definition left {B} (b : B) (d : device B) : device B :=
  pm_put (set_locked false (set_bus b (set_locked true (pm_get d)))).

(** Two threads on one device: one writes two bytes at [0x10], the other
    reads two bytes at [0x20]. *)
Definition two_clients : list (prog Z) :=
  [cyttsp4_spi_write (H := arm32) 0x10 (Some [0xAA; 0xBB]) 2 ≫= Ret;
   cyttsp4_spi_read (H := arm32) 0x20 (Some [0; 0]) 2 ≫= (fun r => Ret r.1)].

(** A schedule of the two: the writer takes the mutex and hands its
    message to the controller; the reader, scheduled in between, gets as
    far as [mutex_lock]. *)
Definition writer_in_flight : list (nat * label) :=
  [(0%nat, LPmGet); (1%nat, LPmGet); (0%nat, LLock);
   (0%nat, LBegin (wr_message 0x10 (Some [0xAA; 0xBB]) 2))].

(** The holder of the mutex after a trace, when every step of it is
    allowed. *)
Fixpoint owner_after (owner : option nat) (tr : list (nat * label))
    : option (option nat) :=
  match tr with
  | [] => Some owner
  | x :: tr' =>
      match next_owner owner x with
      | Some owner' => owner_after owner' tr'
      | None => None
      end
  end.


(** A thread that has returned. *)
Definition finished {A : Type} (t : thread A) : Prop :=
  exists a, t = Running (Ret a).

(** The owner of the mutex is one of the threads. *)
Definition owner_alive {A : Type} (owner : option nat)
    (pool : list (thread A)) : Prop :=
  forall i, owner = Some i -> is_Some (pool !! i).







(** ** Probing and removing the device *)

Definition CY_SPI_BITS_PER_WORD : Z := 8.

(** [SPI_MODE_0] of [<linux/spi/spi.h>] and [ENOMEM] of
    [<asm-generic/errno-base.h>]. *)
Definition SPI_MODE_0 : Z := 0.
Definition ENOMEM : Z := 12.

(** A [struct mutex]: as [kzalloc] leaves it, initialised and free, or
    held. *)
Inductive mutex_state : Type := MutexZeroed | MutexFree | MutexHeld.

(** [struct cyttsp4_spi]: [ts_client] tells whether [client] points to the
    SPI device (it is [NULL] otherwise), [ts_lock] is [lock]. *)
Record cyttsp4_spi : Type := {
  ts_client : bool;
  ts_lock : mutex_state
}.

(** What [cyttsp4_add_adapter] and [cyttsp4_del_adapter] were called
    with; [cyttsp4_add_adapter] is given [&ops] and the device besides the
    name. *)
Inductive adapter_call (name : Type) : Type :=
| AddAdapter (id : name)
| DelAdapter (id : name).
Arguments AddAdapter {name} id.
Arguments DelAdapter {name} id.

(** The SPI device being probed and the kernel around it: the fields of
    [struct spi_device] and of its [struct device] that the driver reads or
    writes, the objects obtained from [kzalloc] by address ([None] once
    freed), and the calls made to the adapter registry, latest last. *)
Record kernel (name : Type) : Type := {
  bits_per_word : Z;
  mode : Z;
  platform_data : option name;
  driver_data : option nat;
  disable_depth : Z;
  heap : list (option cyttsp4_spi);
  adapter_calls : list (adapter_call name)
}.
Arguments bits_per_word {name} k.
Arguments mode {name} k.
Arguments platform_data {name} k.
Arguments driver_data {name} k.
Arguments disable_depth {name} k.
Arguments heap {name} k.
Arguments adapter_calls {name} k.

(** What the kernel functions that can fail will answer: the return code
    of [spi_setup], whether [kzalloc] finds memory, the return code of
    [cyttsp4_add_adapter]. *)
Record answers : Type := {
  spi_setup_rc : Z;
  kzalloc_ok : bool;
  add_adapter_rc : Z
}.

Section Lifecycle.
Context {name : Type}.

(** The name under which the adapter is registered when the platform data
    give none; its text is in [cyttsp4_spi.h]. *)
Variable CYTTSP4_SPI_NAME : name.

Definition set_spi_word_and_mode (bits m : Z) (k : kernel name) : kernel name :=
  {| bits_per_word := bits; mode := m;
     platform_data := platform_data k; driver_data := driver_data k;
     disable_depth := disable_depth k; heap := heap k;
     adapter_calls := adapter_calls k |}.

(** [dev_set_drvdata]. *)
Definition dev_set_drvdata (p : option nat) (k : kernel name) : kernel name :=
  {| bits_per_word := bits_per_word k; mode := mode k;
     platform_data := platform_data k; driver_data := p;
     disable_depth := disable_depth k; heap := heap k;
     adapter_calls := adapter_calls k |}.

Definition set_disable_depth (n : Z) (k : kernel name) : kernel name :=
  {| bits_per_word := bits_per_word k; mode := mode k;
     platform_data := platform_data k; driver_data := driver_data k;
     disable_depth := n; heap := heap k;
     adapter_calls := adapter_calls k |}.

Definition set_heap (h : list (option cyttsp4_spi)) (k : kernel name)
    : kernel name :=
  {| bits_per_word := bits_per_word k; mode := mode k;
     platform_data := platform_data k; driver_data := driver_data k;
     disable_depth := disable_depth k; heap := h;
     adapter_calls := adapter_calls k |}.

Definition log_adapter_call (c : adapter_call name) (k : kernel name)
    : kernel name :=
  {| bits_per_word := bits_per_word k; mode := mode k;
     platform_data := platform_data k; driver_data := driver_data k;
     disable_depth := disable_depth k; heap := heap k;
     adapter_calls := adapter_calls k ++ [c] |}.

(** [pm_runtime_enable] undoes one [pm_runtime_disable] if there is one to
    undo (it warns otherwise); [pm_runtime_disable] adds one. *)
Definition pm_runtime_enable (k : kernel name) : kernel name :=
  if 0 <? disable_depth k then set_disable_depth (disable_depth k - 1) k
  else k.
Definition pm_runtime_disable (k : kernel name) : kernel name :=
  set_disable_depth (disable_depth k + 1) k.

(** [kzalloc]: [NULL], or the address of a new zeroed object. *)
Definition kzalloc (env : answers) (k : kernel name)
    : option nat * kernel name :=
  if kzalloc_ok env
  then (Some (List.length (heap k)),
        set_heap (heap k ++ [Some {| ts_client := false;
                                     ts_lock := MutexZeroed |}]) k)
  else (None, k).

(** [kfree]: nothing for [NULL]; the object at the address is gone
    otherwise. *)
Definition kfree (p : option nat) (k : kernel name) : kernel name :=
  match p with
  | Some a => set_heap (<[a := None]> (heap k)) k
  | None => k
  end.

(** A store to a field of the object at [p]. *)
Definition update_ts (p : nat) (f : cyttsp4_spi -> cyttsp4_spi)
    (k : kernel name) : kernel name :=
  set_heap (alter (fmap f) p (heap k)) k.

(** [mutex_init (&ts_spi->lock)] and [ts_spi->client = spi]. *)
Definition mutex_init (p : nat) : kernel name -> kernel name :=
  update_ts p (fun ts => {| ts_client := ts_client ts; ts_lock := MutexFree |}).
Definition set_client (p : nat) : kernel name -> kernel name :=
  update_ts p (fun ts => {| ts_client := true; ts_lock := ts_lock ts |}).

Definition cyttsp4_spi_probe (env : answers) (k : kernel name)
    : Z * kernel name :=
  let adap_id := platform_data k in
  let k := set_spi_word_and_mode CY_SPI_BITS_PER_WORD SPI_MODE_0 k in
  let rc := spi_setup_rc env in
  if rc <? 0 then (rc, k)
  else
    let '(ts_spi, k) := kzalloc env k in
    match ts_spi with
    | None => let rc := - ENOMEM in (rc, k)
    | Some p =>
        let k := mutex_init p k in
        let k := set_client p k in
        let k := dev_set_drvdata ts_spi k in
        let id :=
          match adap_id with
          | Some s => s
          | None => CYTTSP4_SPI_NAME
          end in
        let k := pm_runtime_enable k in
        let k := log_adapter_call (AddAdapter id) k in
        let rc := add_adapter_rc env in
        if negb (rc =? 0) then
          (* add_adapter_err *)
          let k := pm_runtime_disable k in
          let k := dev_set_drvdata None k in
          let k := kfree ts_spi k in
          (rc, k)
        else (0, k)
    end.

Definition cyttsp4_spi_remove (k : kernel name) : Z * kernel name :=
  let ts_spi := driver_data k in
  let adap_id := platform_data k in
  let id :=
    match adap_id with
    | Some s => s
    | None => CYTTSP4_SPI_NAME
    end in
  let k := log_adapter_call (DelAdapter id) k in
  let k := pm_runtime_disable k in
  let k := dev_set_drvdata None k in
  let k := kfree ts_spi k in
  (0, k).
End Lifecycle.

(** The objects still allocated. *)
Definition live (h : list (option cyttsp4_spi)) : list cyttsp4_spi :=
  omap id h.

(** A device before it is probed: no driver data, runtime PM disabled
    once, nothing allocated, no call to the registry yet. *)
Definition unprobed {name : Type} (pdata : option name) : kernel name :=
  {| bits_per_word := 0; mode := 3; platform_data := pdata;
     driver_data := None; disable_depth := 1; heap := [];
     adapter_calls := [] |}.

(** ** The debug dump, as built with [VERBOSE_DEBUG] *)

(** Characters are their codes.  [%02x] of a [u8]: two lower-case
    hexadecimal digits. *)
Definition hex_digit (n : Z) : Z := if n <? 10 then 48 + n else 87 + n.

(** The text of [snprintf (..., "%02x ", v)] for a byte [v]. *)
Definition fmt_02x_space (v : Z) : list Z :=
  [hex_digit (to_u8 v / 16); hex_digit (to_u8 v mod 16); 32].

(** [sizeof (b)] for [static char b[CY_SPI_DATA_SIZE * 3 + 1]]. *)
Definition sizeof_b : Z := CY_SPI_DATA_SIZE * 3 + 1.

(** [snprintf (b + k, n, ...)] with the text [s]: nothing when [n] is 0,
    otherwise at most [n - 1] characters of [s] and a terminating NUL,
    stored from offset [k] on. *)
Definition snprintf (b : list Z) (k : nat) (n : Z) (s : list Z) : list Z :=
  if n =? 0 then b
  else
    let out := take (Z.to_nat (n - 1)) s ++ [0] in
    take k b ++ out ++ drop (k + List.length out) b.

(** The string at the start of a buffer: the characters before the first
    NUL. *)
Fixpoint c_string (b : list Z) : list Z :=
  match b with
  | [] => []
  | c :: b' => if c =? 0 then [] else c :: c_string b'
  end.

(** The loop of [_cyttsp4_spi_pr_buf], with [count] rounds to go from
    index [i] and offset [k].  The loop is followed as long as [b + k]
    points into [b] or just past it and [buf + i] into [buf]; there is no
    result beyond that: with [k] beyond the end of [b] the size
    [sizeof (b) - k] given to [snprintf] has wrapped around, and what
    happens then is left to [snprintf]. *)
Fixpoint pr_buf_loop (count : nat) (i k : nat) (buf b : list Z)
    : option (list Z) :=
  match count with
  | O => Some b
  | S count' =>
      if sizeof_b <? Z.of_nat k then None
      else
        v ← buf !! i;
        pr_buf_loop count' (S i) (k + 3)%nat buf
          (snprintf b k (sizeof_b - Z.of_nat k) (fmt_02x_space v))
  end.

(** [_cyttsp4_spi_pr_buf (ts_spi, buf, size, info)]: from the static
    buffer [b] as the last call left it, the buffer as this call leaves it
    and the string handed to [dev_dbg] after [info].  The loop counter is
    [unsigned]: it is compared with [size] converted to [unsigned]. *)
Definition _cyttsp4_spi_pr_buf (b buf : list Z) (size : Z)
    : option (list Z * list Z) :=
  let size := to_int size in
  b' ← pr_buf_loop (Z.to_nat (to_unsigned size)) 0 0 buf b;
  Some (b', c_string b').

(** [b] before the first call: static storage is zeroed. *)
Definition b_zeroed : list Z := replicate (Z.to_nat sizeof_b) 0.

(** The dump of some bytes. *)
Definition hex_dump (bytes : list Z) : list Z :=
  mjoin (fmt_02x_space <$> bytes).

(** Reading a dump back. *)
Definition unhex_digit (c : Z) : Z := if c <? 58 then c - 48 else c - 87.
Fixpoint undump (s : list Z) : list Z :=
  match s with
  | h :: l :: _ :: s' => (16 * unhex_digit h + unhex_digit l) :: undump s'
  | _ => []
  end.

(** * Properties *)

(** ** Integer conversions *)

Lemma to_u8_idem z : to_u8 (to_u8 z) = to_u8 z.
Proof. unfold to_u8. apply Z.mod_mod. lia. Qed.

Lemma to_u8_range z : 0 <= to_u8 z <= 255.
Proof. unfold to_u8. pose proof (Z.mod_pos_bound z 256). lia. Qed.

Lemma to_u8_small z : 0 <= z <= 255 -> to_u8 z = z.
Proof. intros. unfold to_u8. apply Z.mod_small. lia. Qed.

Lemma to_int_range z : INT_MIN <= to_int z <= INT_MAX.
Proof.
  unfold to_int, INT_MIN, INT_MAX.
  pose proof (Z.mod_pos_bound (z + 2 ^ 31) (2 ^ 32)). lia.
Qed.

Lemma to_int_small z : INT_MIN <= z <= INT_MAX -> to_int z = z.
Proof.
  unfold to_int, INT_MIN, INT_MAX. intros.
  rewrite Z.mod_small; lia.
Qed.

Lemma to_int_idem z : to_int (to_int z) = to_int z.
Proof. apply to_int_small, to_int_range. Qed.

(** An [int] passed through a [size_t] parameter and back is unchanged,
    whatever the width of [long]. *)
Lemma to_int_to_size_t `{arch} z : to_int (to_size_t z) = to_int z.
Proof.
  unfold to_int, to_size_t.
  pose proof BITS_PER_LONG_min.
  replace (2 ^ BITS_PER_LONG) with (2 ^ 32 * 2 ^ (BITS_PER_LONG - 32)).
  2:{ rewrite <- Z.pow_add_r by lia. f_equal. lia. }
  set (K := 2 ^ (BITS_PER_LONG - 32)).
  assert (0 < K) by (apply Z.pow_pos_nonneg; lia).
  f_equal.
  rewrite (Z.mod_eq z (2 ^ 32 * K)) by lia.
  replace (z - 2 ^ 32 * K * (z / (2 ^ 32 * K)) + 2 ^ 31)
    with (z + 2 ^ 31 + (- (K * (z / (2 ^ 32 * K)))) * 2 ^ 32) by ring.
  apply Z.mod_add. lia.
Qed.

(** ** The transfer function in normal form *)

Lemma to_u8_not_above_255 z : (to_u8 z >? 255) = false.
Proof. pose proof (to_u8_range z). lia. Qed.

(** The transfers [cyttsp4_spi_xfer] chains for each operation. *)
Lemma cyttsp4_spi_xfer_unfold op reg buf length :
  cyttsp4_spi_xfer op reg buf length =
    if to_u8 op =? CY_SPI_WR_OP then
      if to_int (to_int length + CY_SPI_WR_HEADER_BYTES) >? CY_SPI_DATA_SIZE
      then Ret (- EINVAL, buf)
      else
        cyttsp4_spi_xfer_sync
          ({| tx_buf := Some [CY_SPI_WR_OP; to_u8 reg];
              rx_buf := Some rd_hdr_buf;
              len := CY_SPI_WR_HEADER_BYTES |}
           :: match buf with
              | Some b => [{| tx_buf := Some b; rx_buf := None;
                              len := to_unsigned (to_int length) |}]
              | None => []
              end) buf
    else if to_u8 op =? CY_SPI_RD_OP then
      match buf with
      | None => Ret (- EINVAL, buf)
      | Some _ =>
          if to_int (to_int length + CY_SPI_RD_HEADER_BYTES) >? CY_SPI_DATA_SIZE
          then Ret (- EINVAL, buf)
          else
            cyttsp4_spi_xfer_sync
              [{| tx_buf := Some [CY_SPI_RD_OP; 0];
                  rx_buf := Some rd_hdr_buf;
                  len := CY_SPI_RD_HEADER_BYTES |};
               {| tx_buf := None; rx_buf := Some data_buf;
                  len := to_unsigned (to_int length) |}] buf
      end
    else Ret (- EINVAL, buf).
Proof.
  unfold cyttsp4_spi_xfer.
  rewrite to_u8_not_above_255.
  replace (to_u8 (to_u8 reg mod 256)) with (to_u8 reg).
  2:{ unfold to_u8. rewrite !Z.mod_mod by lia. reflexivity. }
  destruct (to_u8 op =? CY_SPI_WR_OP).
  - destruct (_ >? _); [reflexivity|]. destruct buf; reflexivity.
  - reflexivity.
Qed.

Section RunFacts.
Context {B : Type}.
Variable controller : B -> spi_message -> spi_reply * B.

(** Both sides of [run_bind] after the first primitive: the rest of [p],
    then [f]. *)
Ltac run_bind_rest IH :=
  rewrite IH;
  match goal with
  | |- context [run ?c ?k ?d] =>
      let d1 := fresh "d" in
      destruct (run c k d) as [[[? d1] ?]|]; [simpl|reflexivity];
      match goal with
      | |- context [run c ?q d1] =>
          destruct (run c q d1) as [[[? ?] ?]|]; reflexivity
      end
  end.

Lemma run_bind {A C} (p : prog A) (f : A -> prog C) d :
  run controller (p ≫= f) d =
    '(a, d', evs) ← run controller p d;
    '(c, d'', evs') ← run controller (f a) d';
    Some (c, d'', evs ++ evs').
Proof.
  change (p ≫= f) with (bind p f).
  revert d. induction p as [a|msg k IH|k IH|k IH|k IH|k IH]; intros d; simpl.
  - destruct (run controller (f a) d) as [[[c d''] evs']|]; reflexivity.
  - destruct (controller (bus d) msg) as [reply b]. run_bind_rest IH.
  - destruct (locked d); [reflexivity|]. run_bind_rest IH.
  - run_bind_rest IH.
  - run_bind_rest IH.
  - run_bind_rest IH.
Qed.

(** The outcome of a phase that reaches [spi_sync]. *)
Lemma run_xfer_sync msg buf d :
  run controller (cyttsp4_spi_xfer_sync msg buf) d =
    let '(reply, b) := controller (bus d) msg in
    Some (if rd_hdr_sync msg reply =? CY_SPI_SYNC_ACK then 0 else 1,
          store_rx data_buf msg (rx_bytes reply) <$> buf,
          set_bus b d, [EvSync msg reply]).
Proof.
  simpl. destruct (controller (bus d) msg) as [reply b].
  destruct (rd_hdr_sync msg reply =? CY_SPI_SYNC_ACK); reflexivity.
Qed.
End RunFacts.

(** ** The two operations, run by one thread *)

Section Operations.
Context `{arch} {B : Type}.
Variable controller : B -> spi_message -> spi_reply * B.

Lemma length_through_calls size :
  to_int (to_size_t (to_int size)) = to_int size.
Proof. rewrite to_int_to_size_t. apply to_int_idem. Qed.

Lemma run_cyttsp4_spi_write addr buf size d :
  locked d = false ->
  run controller (cyttsp4_spi_write addr buf size) d =
    if to_int (to_int size + CY_SPI_WR_HEADER_BYTES) >? CY_SPI_DATA_SIZE
    then Some (- EINVAL, left (bus d) d, [EvPmGet; EvLock; EvUnlock; EvPmPut])
    else
      let msg := wr_message addr buf (to_int size) in
      let '(reply, b) := controller (bus d) msg in
      Some (if rd_hdr_sync msg reply =? CY_SPI_SYNC_ACK then 0 else - EIO,
            left b d,
            [EvPmGet; EvLock; EvSync msg reply; EvUnlock; EvPmPut]).
Proof.
  intros Hfree.
  unfold cyttsp4_spi_write, cyttsp4_spi_write_block_data.
  rewrite cyttsp4_spi_xfer_unfold, !to_u8_idem, length_through_calls.
  change (to_u8 CY_SPI_WR_OP =? CY_SPI_WR_OP) with true. cbv iota.
  destruct (_ >? _).
  - simpl. rewrite Hfree. reflexivity.
  - simpl. rewrite Hfree. simpl.
    fold (wr_hdr_xfer addr).
    change (wr_hdr_xfer addr :: _) with (wr_message addr buf (to_int size)).
    destruct (controller (bus d) _) as [reply b].
    destruct (rd_hdr_sync _ reply =? CY_SPI_SYNC_ACK); reflexivity.
Qed.
Lemma run_cyttsp4_spi_read addr buf size d :
  locked d = false ->
  run controller (cyttsp4_spi_read addr buf size) d =
    let msg1 := wr_message addr None 0 in
    let '(reply1, b1) := controller (bus d) msg1 in
    let rejected :=
      Some (- EINVAL, buf, left b1 d,
            [EvPmGet; EvLock; EvSync msg1 reply1; EvUnlock; EvPmPut]) in
    match buf with
    | None => rejected
    | Some data =>
        if to_int (to_int size + CY_SPI_RD_HEADER_BYTES) >? CY_SPI_DATA_SIZE
        then rejected
        else
          let msg2 := rd_message (to_int size) in
          let '(reply2, b2) := controller b1 msg2 in
          Some (if rd_hdr_sync msg2 reply2 =? CY_SPI_SYNC_ACK
                then 0 else - EIO,
                Some (store_rx data_buf msg2 (rx_bytes reply2) data),
                left b2 d,
                [EvPmGet; EvLock; EvSync msg1 reply1; EvSync msg2 reply2;
                 EvUnlock; EvPmPut])
    end.
Proof.
  intros Hfree.
  unfold cyttsp4_spi_read, cyttsp4_spi_read_block_data.
  rewrite !cyttsp4_spi_xfer_unfold, !to_u8_idem, length_through_calls.
  change (to_u8 CY_SPI_WR_OP =? CY_SPI_WR_OP) with true.
  change (to_u8 CY_SPI_RD_OP =? CY_SPI_WR_OP) with false.
  change (to_u8 CY_SPI_RD_OP =? CY_SPI_RD_OP) with true.
  change (to_int (to_int 0 + CY_SPI_WR_HEADER_BYTES) >? CY_SPI_DATA_SIZE)
    with false.
  cbv iota. simpl. rewrite Hfree. simpl.
  fold (wr_hdr_xfer addr). fold (wr_message addr None 0).
  destruct (controller (bus d) _) as [reply1 b1].
  destruct (rd_hdr_sync _ reply1 =? CY_SPI_SYNC_ACK); simpl.
  - destruct buf as [data|]; [|reflexivity].
    destruct (_ >? _); [reflexivity|]. simpl.
    fold rd_hdr_xfer. fold (rd_data_xfer (to_int size)).
    fold (rd_message (to_int size)).
    destruct (controller b1 _) as [reply2 b2].
    destruct (rd_hdr_sync _ reply2 =? CY_SPI_SYNC_ACK); reflexivity.
  - destruct buf as [data|]; [|reflexivity].
    destruct (_ >? _); [reflexivity|]. simpl.
    fold rd_hdr_xfer. fold (rd_data_xfer (to_int size)).
    fold (rd_message (to_int size)).
    destruct (controller b1 _) as [reply2 b2].
    destruct (rd_hdr_sync _ reply2 =? CY_SPI_SYNC_ACK); reflexivity.
Qed.
End Operations.

(** ** One phase: the exchange and the ACK check *)

Lemma cyttsp4_spi_xfer_sync_inv m buf msg k :
  cyttsp4_spi_xfer_sync m buf = SpiSync msg k ->
  m = msg /\
  forall reply,
    k reply =
      Ret (if rd_hdr_sync msg reply =? CY_SPI_SYNC_ACK then 0 else 1,
           store_rx data_buf msg (rx_bytes reply) <$> buf).
Proof.
  unfold cyttsp4_spi_xfer_sync. simpl. intros Heq.
  injection Heq as -> <-. split; [reflexivity|].
  intros reply. destruct (rd_hdr_sync msg reply =? CY_SPI_SYNC_ACK); reflexivity.
Qed.

(** Whatever the operation, a phase that exchanges [msg] continues from
    the reply by the ACK check alone. *)
Lemma cyttsp4_spi_xfer_exchange_inv op reg buf length msg k :
  cyttsp4_spi_xfer op reg buf length = SpiSync msg k ->
  forall reply,
    k reply =
      Ret (if rd_hdr_sync msg reply =? CY_SPI_SYNC_ACK then 0 else 1,
           store_rx data_buf msg (rx_bytes reply) <$> buf).
Proof.
  rewrite cyttsp4_spi_xfer_unfold. intros Heq.
  repeat match type of Heq with
         | (if ?c then _ else _) = _ => destruct c
         | match ?b with Some _ => _ | None => _ end = _ => destruct b
         end;
    try discriminate Heq;
    apply cyttsp4_spi_xfer_sync_inv in Heq as [_ Hk]; exact Hk.
Qed.

(** A phase that gets as far as [spi_sync] is the exchange of one message
    and what follows it. *)
Lemma cyttsp4_spi_xfer_first_message op reg buf length msg :
  first_message (cyttsp4_spi_xfer op reg buf length) = Some msg ->
  exists k, cyttsp4_spi_xfer op reg buf length = SpiSync msg k.
Proof.
  rewrite cyttsp4_spi_xfer_unfold. intros Hfirst.
  repeat match type of Hfirst with
         | first_message (if ?c then _ else _) = _ => destruct c
         | first_message (match ?b with Some _ => _ | None => _ end) = _ =>
             destruct b
         end;
    try discriminate Hfirst;
    injection Hfirst as <-; eexists; reflexivity.
Qed.

(** C1. In every phase of both operations, once the exchange has been
    made, a response header whose sync byte (offset 0) is [0x62] makes the
    phase return 0, whatever [spi_sync] returned: the reply [reply] of the
    controller is arbitrary, its return code included, and nothing returns
    between the exchange and the ACK check. *)
Theorem sync_ack_is_success {B : Type}
    (controller : B -> spi_message -> spi_reply * B)
    op reg buf length msg d reply b :
  first_message (cyttsp4_spi_xfer op reg buf length) = Some msg ->
  controller (bus d) msg = (reply, b) ->
  rd_hdr_sync msg reply = CY_SPI_SYNC_ACK ->
  run controller (cyttsp4_spi_xfer op reg buf length) d =
    Some (0, store_rx data_buf msg (rx_bytes reply) <$> buf,
          set_bus b d, [EvSync msg reply]).
Proof.
  intros Hfirst Hc Hack.
  destruct (cyttsp4_spi_xfer_first_message _ _ _ _ _ Hfirst) as [k Hx].
  pose proof (cyttsp4_spi_xfer_exchange_inv _ _ _ _ _ _ Hx reply) as Hk.
  rewrite Hx. simpl. rewrite Hc, Hk, Hack. reflexivity.
Qed.

(** The address phase of a read and a write of one byte, each answered
    with the sync byte [0x62] while [spi_sync] fails with [-EIO]. *)
Lemma sync_ack_is_success_witness :
  run scripted (cyttsp4_spi_xfer CY_SPI_WR_OP 0x10 (Some [0xAA]) 1)
    (idle_device [reply_with (- EIO) 0x62 []]) =
    Some (0, Some [0xAA], idle_device [],
          [EvSync (wr_message 0x10 (Some [0xAA]) 1)
             (reply_with (- EIO) 0x62 [])]) /\
  run scripted (cyttsp4_spi_xfer CY_SPI_RD_OP 0x10 (Some [0; 0]) 2)
    (idle_device [reply_with (- EIO) 0x62 [7; 8]]) =
    Some (0, Some [7; 8], idle_device [],
          [EvSync (rd_message 2) (reply_with (- EIO) 0x62 [7; 8])]).
Proof.
  split.
  - apply (sync_ack_is_success scripted CY_SPI_WR_OP 0x10 (Some [0xAA]) 1
             (wr_message 0x10 (Some [0xAA]) 1)
             (idle_device [reply_with (- EIO) 0x62 []])
             (reply_with (- EIO) 0x62 []) []);
      reflexivity.
  - apply (sync_ack_is_success scripted CY_SPI_RD_OP 0x10 (Some [0; 0]) 2
             (rd_message 2)
             (idle_device [reply_with (- EIO) 0x62 [7; 8]])
             (reply_with (- EIO) 0x62 [7; 8]) []);
      reflexivity.
Defined.

(** ** The frames on the wire *)

Lemma to_unsigned_small z : 0 <= z <= INT_MAX -> to_unsigned z = z.
Proof.
  unfold to_unsigned, INT_MAX. intros. apply Z.mod_small. lia.
Qed.

Lemma wire_bytes_wr_hdr_xfer reg :
  wire_bytes (wr_hdr_xfer reg) = Some [CY_SPI_WR_OP; reg mod 256].
Proof. reflexivity. Qed.

(** C7. A write with valid arguments (a payload of [size] bytes that fits
    the frame) makes exactly one exchange, of one message with exactly two
    chained transfers.  The first sends the 2-byte header
    [0x00; addr mod 256], has length 2 and is received into [rd_hdr_buf];
    the second sends from the caller's payload, has length [size] and no
    receive buffer.  What goes over the wire is the header, then the
    payload bytes as they are. *)
Theorem write_is_one_chained_exchange `{arch} {B : Type}
    (controller : B -> spi_message -> spi_reply * B) addr data size d :
  locked d = false ->
  Z.of_nat (List.length data) = size ->
  size + CY_SPI_WR_HEADER_BYTES <= CY_SPI_DATA_SIZE ->
  let hdr := {| tx_buf := Some [0x00; addr mod 256];
                rx_buf := Some rd_hdr_buf;
                len := 2 |} in
  let payload := {| tx_buf := Some data; rx_buf := None; len := size |} in
  exists reply b,
    controller (bus d) [hdr; payload] = (reply, b) /\
    run controller (cyttsp4_spi_write addr (Some data) size) d =
      Some (if rd_hdr_sync [hdr; payload] reply =? CY_SPI_SYNC_ACK
            then 0 else - EIO,
            left b d,
            [EvPmGet; EvLock; EvSync [hdr; payload] reply;
             EvUnlock; EvPmPut]) /\
    wire_bytes hdr = Some [0x00; addr mod 256] /\
    wire_bytes payload = Some data.
Proof.
  intros Hfree Hlen Hfit hdr payload.
  unfold CY_SPI_WR_HEADER_BYTES, CY_SPI_DATA_SIZE in Hfit.
  assert (Hint : to_int size = size)
    by (apply to_int_small; unfold INT_MIN, INT_MAX; lia).
  rewrite run_cyttsp4_spi_write, Hint by assumption.
  rewrite to_int_small
    by (unfold INT_MIN, INT_MAX, CY_SPI_WR_HEADER_BYTES; lia).
  destruct (_ >? _) eqn:Hbig;
    [unfold CY_SPI_WR_HEADER_BYTES, CY_SPI_DATA_SIZE in Hbig; lia|].
  cbv zeta.
  assert (Hmsg : wr_message addr (Some data) size = [hdr; payload]).
  { unfold wr_message, wr_data_xfer.
    rewrite to_unsigned_small by (unfold INT_MAX; lia). reflexivity. }
  rewrite Hmsg.
  destruct (controller (bus d) [hdr; payload]) as [reply b].
  exists reply, b. split; [reflexivity|]. split; [reflexivity|].
  split; [reflexivity|].
  unfold wire_bytes, payload; simpl.
  rewrite <- Hlen, Nat2Z.id, firstn_all. reflexivity.
Qed.

(** The scenario [write_block (addr = 0x10, data = [0xAA; 0xBB])]
    acknowledged with [0x62]: one message of the transfers [0x00; 0x10],
    of length 2, and [0xAA; 0xBB], of length 2. *)
Lemma write_is_one_chained_exchange_witness :
  let hdr := {| tx_buf := Some [0x00; 0x10];
                rx_buf := Some rd_hdr_buf;
                len := 2 |} in
  let payload := {| tx_buf := Some [0xAA; 0xBB]; rx_buf := None; len := 2 |} in
  run scripted (cyttsp4_spi_write (H := arm32) 0x10 (Some [0xAA; 0xBB]) 2)
    (idle_device [reply_with 0 0x62 []]) =
    Some (0, idle_device [],
          [EvPmGet; EvLock; EvSync [hdr; payload] (reply_with 0 0x62 []);
           EvUnlock; EvPmPut]) /\
  wire_bytes hdr = Some [0x00; 0x10] /\
  wire_bytes payload = Some [0xAA; 0xBB].
Proof.
  destruct (write_is_one_chained_exchange (H := arm32) scripted 0x10
              [0xAA; 0xBB] 2 (idle_device [reply_with 0 0x62 []]))
    as (reply & b & Hreply & Hrun & Hhdr & Hpayload);
    [reflexivity | reflexivity | vm_compute; discriminate |].
  injection Hreply as <- <-.
  split; [|split; [exact Hhdr | exact Hpayload]].
  rewrite Hrun. reflexivity.
Defined.

(** C10. A write-direction transfer with a [NULL] payload pointer sends a
    message of the header transfer alone, whatever [length] is; the
    oversize check is still made on [length]; and the message the read
    operation exchanges first is that of the header-only write of its
    address. *)
Theorem null_payload_write_is_header_only `{arch} reg length addr size data :
  INT_MIN <= length ->
  length + CY_SPI_WR_HEADER_BYTES <= INT_MAX ->
  (if length + CY_SPI_WR_HEADER_BYTES >? CY_SPI_DATA_SIZE
   then cyttsp4_spi_xfer CY_SPI_WR_OP reg None length = Ret (- EINVAL, None)
   else
     exists k,
       cyttsp4_spi_xfer CY_SPI_WR_OP reg None length =
         SpiSync [wr_hdr_xfer reg] k) /\
  wire_bytes (wr_hdr_xfer reg) = Some [CY_SPI_WR_OP; reg mod 256] /\
  first_message (cyttsp4_spi_read_block_data addr size data) =
    first_message (cyttsp4_spi_xfer CY_SPI_WR_OP addr None 0) /\
  first_message (cyttsp4_spi_xfer CY_SPI_WR_OP addr None 0) =
    Some [wr_hdr_xfer addr].
Proof.
  intros Hlo Hhi. unfold CY_SPI_WR_HEADER_BYTES in Hhi.
  split; [|split; [reflexivity|split]].
  - rewrite cyttsp4_spi_xfer_unfold.
    change (to_u8 CY_SPI_WR_OP =? CY_SPI_WR_OP) with true. cbv iota.
    rewrite (to_int_small length) by lia.
    rewrite to_int_small by (unfold CY_SPI_WR_HEADER_BYTES, INT_MIN in *; lia).
    destruct (_ >? _); [reflexivity|].
    eexists. reflexivity.
  - unfold cyttsp4_spi_read_block_data.
    rewrite !cyttsp4_spi_xfer_unfold, to_u8_idem. reflexivity.
  - rewrite cyttsp4_spi_xfer_unfold. reflexivity.
Qed.

(** A header-only write with a length of 100, one with a length too large
    for the frame, and the address phase of a read at [0x10]. *)
Lemma null_payload_write_is_header_only_witness :
  (exists k,
     cyttsp4_spi_xfer CY_SPI_WR_OP 0x10 None 100 =
       SpiSync [wr_hdr_xfer 0x10] k) /\
  cyttsp4_spi_xfer CY_SPI_WR_OP 0x10 None 767 = Ret (- EINVAL, None) /\
  first_message (cyttsp4_spi_read_block_data (H := arm32) 0x10 4 (Some [0; 0; 0; 0])) =
    Some [wr_hdr_xfer 0x10].
Proof.
  pose proof (null_payload_write_is_header_only (H := arm32)
                0x10 100 0x10 4 (Some [0; 0; 0; 0])) as H100.
  pose proof (null_payload_write_is_header_only (H := arm32)
                0x10 767 0x10 4 (Some [0; 0; 0; 0])) as H767.
  destruct H100 as (Hsmall & _ & Hfirst & Haddr); [vm_compute; discriminate ..|].
  destruct H767 as (Hbig & _); [vm_compute; discriminate ..|].
  split; [exact Hsmall|].
  split; [exact Hbig|].
  rewrite Hfirst. exact Haddr.
Defined.

(** ** Register addresses *)

(** C5, what the code does.  In every write-direction transfer the header
    is [0x00; reg mod 256]: the extended-address bit [0x02] is clear
    whatever address the caller wrote down, also for the addresses from
    256 to 511.  The code tests [reg > 255] to set the bit, but [reg] is
    a [u8], so that the value has been reduced to 8 bits before the test
    is made and its branch is never taken. *)
Theorem write_header_of_u8_address op reg buf length msg :
  to_u8 op = CY_SPI_WR_OP ->
  first_message (cyttsp4_spi_xfer op reg buf length) = Some msg ->
  exists hdr rest byte0 byte1,
    msg = hdr :: rest /\
    wire_bytes hdr = Some [byte0; byte1] /\
    byte0 = CY_SPI_WR_OP /\
    Z.land byte0 CY_SPI_A8_BIT = 0 /\
    byte1 = reg mod 256.
Proof.
  intros Hop. rewrite cyttsp4_spi_xfer_unfold, Hop.
  change (CY_SPI_WR_OP =? CY_SPI_WR_OP) with true. cbv iota.
  destruct (_ >? _); [discriminate|].
  simpl. intros [= <-].
  eexists _, _, _, _. split; [reflexivity|].
  split; [reflexivity|]. repeat split.
Qed.

(** Addresses [0x10] and [0x123] in a write of one byte. *)
Lemma write_header_of_u8_address_witness :
  (exists hdr rest,
     wr_message 0x10 (Some [0xAA]) 1 = hdr :: rest /\
     wire_bytes hdr = Some [0x00; 0x10]) /\
  (exists hdr rest,
     wr_message 0x123 (Some [0xAA]) 1 = hdr :: rest /\
     wire_bytes hdr = Some [0x00; 0x23]).
Proof.
  split.
  - destruct (write_header_of_u8_address CY_SPI_WR_OP 0x10 (Some [0xAA]) 1
                (wr_message 0x10 (Some [0xAA]) 1) eq_refl eq_refl)
      as (hdr & rest & byte0 & byte1 & Hmsg & Hwire & -> & _ & ->).
    exists hdr, rest. split; assumption.
  - destruct (write_header_of_u8_address CY_SPI_WR_OP 0x123 (Some [0xAA]) 1
                (wr_message 0x123 (Some [0xAA]) 1) eq_refl eq_refl)
      as (hdr & rest & byte0 & byte1 & Hmsg & Hwire & -> & _ & ->).
    exists hdr, rest. split; assumption.
Defined.

(** At address [0x100], which lies in [256, 511], the header of the write
    is [0x00; 0x00]: the extended-address bit is not set. *)
Lemma extended_address_bit_clear_at_0x100 :
  256 <= 0x100 <= 511 /\
  header_bytes (cyttsp4_spi_xfer CY_SPI_WR_OP 0x100 (Some [0xAA]) 1) =
    Some [0x00; 0x00] /\
  header_bytes (cyttsp4_spi_write (H := arm32) 0x100 (Some [0xAA]) 1) =
    Some [0x00; 0x00] /\
  ~ (exists byte0 byte1,
       header_bytes (cyttsp4_spi_xfer CY_SPI_WR_OP 0x100 (Some [0xAA]) 1) =
         Some [byte0; byte1] /\
       Z.land byte0 CY_SPI_A8_BIT = CY_SPI_A8_BIT).
Proof.
  split; [lia|]. split; [reflexivity|]. split; [reflexivity|].
  intros (byte0 & byte1 & Hhdr & Hbit).
  vm_compute in Hhdr. injection Hhdr as <- <-. discriminate Hbit.
Qed.

(** The length checks on an [int] whose sum with the header length does
    not overflow. *)
Lemma wr_length_check size :
  INT_MIN <= size -> size + CY_SPI_WR_HEADER_BYTES <= INT_MAX ->
  (to_int (to_int size + CY_SPI_WR_HEADER_BYTES) >? CY_SPI_DATA_SIZE) =
    (size + CY_SPI_WR_HEADER_BYTES >? CY_SPI_DATA_SIZE).
Proof.
  unfold CY_SPI_WR_HEADER_BYTES. intros.
  rewrite (to_int_small size) by lia.
  rewrite to_int_small by (unfold INT_MIN in *; lia). reflexivity.
Qed.

Lemma rd_length_check size :
  INT_MIN <= size -> size + CY_SPI_RD_HEADER_BYTES <= INT_MAX ->
  (to_int (to_int size + CY_SPI_RD_HEADER_BYTES) >? CY_SPI_DATA_SIZE) =
    (size + CY_SPI_RD_HEADER_BYTES >? CY_SPI_DATA_SIZE).
Proof.
  unfold CY_SPI_RD_HEADER_BYTES. intros.
  rewrite (to_int_small size) by lia.
  rewrite to_int_small by (unfold INT_MIN in *; lia). reflexivity.
Qed.

(** The checks are made on the [int] sum, which wraps: at [INT_MAX] the
    sum is negative and passes. *)
Lemma length_check_wraps :
  (to_int (to_int INT_MAX + CY_SPI_WR_HEADER_BYTES) >? CY_SPI_DATA_SIZE) = false /\
  (to_int (to_int INT_MAX + CY_SPI_RD_HEADER_BYTES) >? CY_SPI_DATA_SIZE) = false.
Proof. split; reflexivity. Qed.






(** ** Rejected requests *)

(** C4, as the code has it.  A write whose length does not fit the frame
    returns [-EINVAL] without any exchange.  A read whose length does not
    fit, or that has no buffer, returns [-EINVAL] as well, but only the
    data phase is withheld: the address phase has been exchanged by then,
    so the call has made exactly one exchange. *)
Theorem invalid_argument_exchanges `{arch} {B : Type}
    (controller : B -> spi_message -> spi_reply * B) addr buf size d :
  locked d = false ->
  INT_MIN <= size ->
  size + CY_SPI_WR_HEADER_BYTES <= INT_MAX ->
  (CY_SPI_DATA_SIZE < size + CY_SPI_WR_HEADER_BYTES ->
   run controller (cyttsp4_spi_write addr buf size) d =
     Some (- EINVAL, left (bus d) d, [EvPmGet; EvLock; EvUnlock; EvPmPut])) /\
  (buf = None \/ CY_SPI_DATA_SIZE < size + CY_SPI_RD_HEADER_BYTES ->
   exists reply1 b1,
     controller (bus d) (wr_message addr None 0) = (reply1, b1) /\
     run controller (cyttsp4_spi_read addr buf size) d =
       Some (- EINVAL, buf, left b1 d,
             [EvPmGet; EvLock; EvSync (wr_message addr None 0) reply1;
              EvUnlock; EvPmPut])).
Proof.
  intros Hfree Hlo Hhi. split.
  - intros Hbig.
    rewrite run_cyttsp4_spi_write, wr_length_check by assumption.
    destruct (_ >? _) eqn:Hcheck; [reflexivity | lia].
  - intros Hbad.
    rewrite run_cyttsp4_spi_read by assumption. cbv zeta.
    destruct (controller (bus d) _) as [reply1 b1].
    exists reply1, b1. split; [reflexivity|].
    destruct buf as [data|]; [|reflexivity].
    destruct Hbad as [Hnull|Hbig]; [discriminate Hnull|].
    rewrite rd_length_check
      by (unfold CY_SPI_RD_HEADER_BYTES, CY_SPI_WR_HEADER_BYTES in *; lia).
    destruct (_ >? _) eqn:Hcheck; [reflexivity | lia].
Qed.

(** A write of 767 bytes, a read of 768 bytes and a read without a
    buffer. *)
Lemma invalid_argument_exchanges_witness :
  exchanges (events_of (run scripted
     (cyttsp4_spi_write (H := arm32) 0x10 (Some (replicate 767 0)) 767)
     (idle_device [reply_with 0 0x62 []]))) = [] /\
  List.length (exchanges (events_of (run scripted
     (cyttsp4_spi_read (H := arm32) 0x10 (Some (replicate 768 0)) 768)
     (idle_device [reply_with 0 0x62 []])))) = 1%nat /\
  List.length (exchanges (events_of (run scripted
     (cyttsp4_spi_read (H := arm32) 0x10 None 4)
     (idle_device [reply_with 0 0x62 []])))) = 1%nat.
Proof.
  split; [|split].
  - destruct (invalid_argument_exchanges (H := arm32) scripted 0x10
                (Some (replicate 767 0)) 767
                (idle_device [reply_with 0 0x62 []]))
      as [Hwrite _]; [reflexivity|vm_compute; discriminate ..|].
    rewrite Hwrite by reflexivity. reflexivity.
  - destruct (invalid_argument_exchanges (H := arm32) scripted 0x10
                (Some (replicate 768 0)) 768
                (idle_device [reply_with 0 0x62 []]))
      as [_ Hread]; [reflexivity|vm_compute; discriminate ..|].
    destruct Hread as (reply1 & b1 & _ & ->); [right; reflexivity|].
    reflexivity.
  - destruct (invalid_argument_exchanges (H := arm32) scripted 0x10 None 4
                (idle_device [reply_with 0 0x62 []]))
      as [_ Hread]; [reflexivity|vm_compute; discriminate ..|].
    destruct Hread as (reply1 & b1 & _ & ->); [left; reflexivity|].
    reflexivity.
Defined.

(** C4 as stated fails for the read: with a length of 768 bytes
    (1 + 768 > 768), and with no buffer, the call returns [-EINVAL] after
    it has exchanged the address frame with the device. *)
Lemma rejected_read_has_exchanged_the_address :
  CY_SPI_DATA_SIZE < CY_SPI_RD_HEADER_BYTES + 768 /\
  run scripted
    (cyttsp4_spi_read (H := arm32) 0x10 (Some [0; 0; 0; 0]) 768)
    (idle_device [reply_with 0 0x62 []]) =
    Some (- EINVAL, Some [0; 0; 0; 0], idle_device [],
          [EvPmGet; EvLock;
           EvSync (wr_message 0x10 None 0) (reply_with 0 0x62 []);
           EvUnlock; EvPmPut]) /\
  run scripted (cyttsp4_spi_read (H := arm32) 0x10 None 4)
    (idle_device [reply_with 0 0x62 []]) =
    Some (- EINVAL, None, idle_device [],
          [EvPmGet; EvLock;
           EvSync (wr_message 0x10 None 0) (reply_with 0 0x62 []);
           EvUnlock; EvPmPut]) /\
  exchanges (events_of (run scripted
     (cyttsp4_spi_read (H := arm32) 0x10 None 4)
     (idle_device [reply_with 0 0x62 []]))) <> [].
Proof.
  split; [reflexivity|]. split; [reflexivity|]. split; [reflexivity|].
  discriminate.
Qed.

(** ** The outcome of a call *)

Lemma rd_hdr_sync_rx_bytes msg r r' :
  rx_bytes r = rx_bytes r' -> rd_hdr_sync msg r = rd_hdr_sync msg r'.
Proof. unfold rd_hdr_sync. intros ->. reflexivity. Qed.

(** C2, what the code does.  A read with valid arguments makes both
    exchanges whatever the address phase was answered: [reply1] is
    arbitrary, its sync byte plays no part, and the value returned is the
    one of the data phase.  The guard after the address phase tests
    [rc < 0], while a phase reports a sync mismatch as [1]. *)
Theorem read_goes_on_after_address_phase `{arch} {B : Type}
    (controller : B -> spi_message -> spi_reply * B) addr data size d :
  locked d = false ->
  INT_MIN <= size ->
  size + CY_SPI_RD_HEADER_BYTES <= CY_SPI_DATA_SIZE ->
  exists reply1 b1 reply2 b2,
    controller (bus d) (wr_message addr None 0) = (reply1, b1) /\
    controller b1 (rd_message size) = (reply2, b2) /\
    run controller (cyttsp4_spi_read addr (Some data) size) d =
      Some (if rd_hdr_sync (rd_message size) reply2 =? CY_SPI_SYNC_ACK
            then 0 else - EIO,
            Some (store_rx data_buf (rd_message size) (rx_bytes reply2) data),
            left b2 d,
            [EvPmGet; EvLock;
             EvSync (wr_message addr None 0) reply1;
             EvSync (rd_message size) reply2;
             EvUnlock; EvPmPut]).
Proof.
  intros Hfree Hlo Hfit.
  unfold CY_SPI_RD_HEADER_BYTES, CY_SPI_DATA_SIZE in Hfit.
  rewrite run_cyttsp4_spi_read by assumption. cbv zeta.
  rewrite rd_length_check
    by (unfold CY_SPI_RD_HEADER_BYTES, INT_MAX; lia).
  rewrite (to_int_small size) by (unfold INT_MAX; lia).
  destruct (controller (bus d) _) as [reply1 b1] eqn:H1.
  destruct (_ >? _) eqn:Hcheck;
    [unfold CY_SPI_RD_HEADER_BYTES, CY_SPI_DATA_SIZE in Hcheck; lia|].
  destruct (controller b1 _) as [reply2 b2] eqn:H2.
  exists reply1, b1, reply2, b2.
  split; [reflexivity|]. split; [exact H2|]. reflexivity.
Qed.

(** A read of four bytes at [0x10] whose address phase is answered with
    the sync byte [0x00] and whose data phase is answered with [0x62]: two
    exchanges, and the call returns 0 with the data. *)
Lemma read_goes_on_after_address_phase_witness :
  rd_hdr_sync (wr_message 0x10 None 0) (reply_with 0 0x00 []) <>
    CY_SPI_SYNC_ACK /\
  run scripted (cyttsp4_spi_read (H := arm32) 0x10 (Some [0; 0; 0; 0]) 4)
    (idle_device [reply_with 0 0x00 []; reply_with 0 0x62 [1; 2; 3; 4]]) =
    Some (0, Some [1; 2; 3; 4], idle_device [],
          [EvPmGet; EvLock;
           EvSync (wr_message 0x10 None 0) (reply_with 0 0x00 []);
           EvSync (rd_message 4) (reply_with 0 0x62 [1; 2; 3; 4]);
           EvUnlock; EvPmPut]).
Proof.
  split; [discriminate|].
  destruct (read_goes_on_after_address_phase (H := arm32) scripted 0x10
              [0; 0; 0; 0] 4
              (idle_device [reply_with 0 0x00 []; reply_with 0 0x62 [1; 2; 3; 4]]))
    as (reply1 & b1 & reply2 & b2 & H1 & H2 & Hrun);
    [reflexivity|vm_compute; discriminate ..|].
  injection H1 as <- <-. injection H2 as <- <-.
  rewrite Hrun. reflexivity.
Defined.




(** C9.  The return code of [spi_sync] is never returned.  Both
    operations return 0, [-EIO] or [-EINVAL] and nothing else; unless the
    request was rejected with [-EINVAL], the value is decided by the sync
    byte of the last response header alone; and two controllers that
    differ only in the codes [spi_sync] returns give the same outcome. *)
Theorem transport_code_never_returned `{arch} {B : Type}
    (controller controller' : B -> spi_message -> spi_reply * B)
    addr buf size d :
  locked d = false ->
  same_but_rc controller controller' ->
  (exists rc,
     outcome (run controller (cyttsp4_spi_write addr buf size) d) = Some rc /\
     (rc = 0 \/ rc = - EIO \/ rc = - EINVAL) /\
     (rc <> - EINVAL ->
      exists msg reply,
        last (exchanges (events_of
          (run controller (cyttsp4_spi_write addr buf size) d))) =
          Some (msg, reply) /\
        rc = if rd_hdr_sync msg reply =? CY_SPI_SYNC_ACK then 0 else - EIO)) /\
  (exists rc buf',
     outcome (run controller (cyttsp4_spi_read addr buf size) d) =
       Some (rc, buf') /\
     (rc = 0 \/ rc = - EIO \/ rc = - EINVAL) /\
     (rc <> - EINVAL ->
      exists msg reply,
        last (exchanges (events_of
          (run controller (cyttsp4_spi_read addr buf size) d))) =
          Some (msg, reply) /\
        rc = if rd_hdr_sync msg reply =? CY_SPI_SYNC_ACK then 0 else - EIO)) /\
  outcome (run controller' (cyttsp4_spi_write addr buf size) d) =
    outcome (run controller (cyttsp4_spi_write addr buf size) d) /\
  outcome (run controller' (cyttsp4_spi_read addr buf size) d) =
    outcome (run controller (cyttsp4_spi_read addr buf size) d).
Proof.
  intros Hfree Hsame.
  rewrite !run_cyttsp4_spi_write, !run_cyttsp4_spi_read by assumption.
  cbv zeta.
  split; [|split; [|split]].
  - destruct (_ >? _).
    + exists (- EINVAL). simpl. split; [reflexivity|].
      split; [auto|]. intros Hne. contradiction Hne. reflexivity.
    + destruct (controller _ _) as [reply b]. simpl.
      eexists. split; [reflexivity|].
      split; [destruct (_ =? _); auto|].
      intros _. exists (wr_message addr buf (to_int size)), reply.
      split; reflexivity.
  - destruct (controller _ _) as [reply1 b1].
    assert (Hrej : exists rc buf',
      outcome (Some (- EINVAL, buf, left b1 d,
                     [EvPmGet; EvLock; EvSync (wr_message addr None 0) reply1;
                      EvUnlock; EvPmPut])) = Some (rc, buf') /\
      (rc = 0 \/ rc = - EIO \/ rc = - EINVAL) /\
      (rc <> - EINVAL ->
       exists msg reply,
         last (exchanges (events_of
           (Some (- EINVAL, buf, left b1 d,
                  [EvPmGet; EvLock; EvSync (wr_message addr None 0) reply1;
                   EvUnlock; EvPmPut])))) = Some (msg, reply) /\
         rc = if rd_hdr_sync msg reply =? CY_SPI_SYNC_ACK then 0 else - EIO)).
    { exists (- EINVAL), buf. split; [reflexivity|].
      split; [auto|]. intros Hne. contradiction Hne. reflexivity. }
    destruct buf as [data|]; [|exact Hrej].
    destruct (_ >? _); [exact Hrej|]. clear Hrej.
    destruct (controller b1 _) as [reply2 b2]. simpl.
    eexists _, _. split; [reflexivity|].
    split; [destruct (_ =? _); auto|].
    intros _. exists (rd_message (to_int size)), reply2.
    split; reflexivity.
  - destruct (_ >? _); [reflexivity|].
    destruct (Hsame (bus d) (wr_message addr buf (to_int size))) as [Hrx Hbus].
    destruct (controller _ _) as [reply b], (controller' _ _) as [reply' b'].
    simpl in *. rewrite (rd_hdr_sync_rx_bytes _ reply reply' Hrx). reflexivity.
  - destruct (Hsame (bus d) (wr_message addr None 0)) as [_ Hbus1].
    destruct (controller (bus d) _) as [reply1 b1],
             (controller' (bus d) _) as [reply1' b1'].
    simpl in Hbus1. subst b1'.
    destruct buf as [data|]; [|reflexivity].
    destruct (_ >? _); [reflexivity|].
    destruct (Hsame b1 (rd_message (to_int size))) as [Hrx Hbus].
    destruct (controller b1 _) as [reply2 b2],
             (controller' b1 _) as [reply2' b2'].
    simpl in *. rewrite (rd_hdr_sync_rx_bytes _ reply2 reply2' Hrx), Hrx.
    reflexivity.
Qed.

Lemma same_but_rc_with_rc {B : Type} rc
    (controller : B -> spi_message -> spi_reply * B) :
  same_but_rc controller (with_rc rc controller).
Proof.
  intros b msg. unfold with_rc.
  destruct (controller b msg) as [reply b']. split; reflexivity.
Qed.

(** A write and a read over a bus that acknowledges, and a write over a
    bus that answers [0x00], with [spi_sync] made to fail with
    [-ETIMEDOUT] (-110) every time: the outcomes are those of the same
    exchanges without the failure, and -110 is not among them. *)
Lemma transport_code_never_returned_witness :
  outcome (run (with_rc (-110) scripted)
     (cyttsp4_spi_write (H := arm32) 0x10 (Some [0xAA; 0xBB]) 2)
     (idle_device [reply_with 0 0x62 []])) = Some 0 /\
  outcome (run (with_rc (-110) scripted)
     (cyttsp4_spi_read (H := arm32) 0x10 (Some [0; 0]) 2)
     (idle_device [reply_with 0 0x62 []; reply_with 0 0x62 [7; 8]])) =
    Some (0, Some [7; 8]) /\
  outcome (run (with_rc (-110) scripted)
     (cyttsp4_spi_write (H := arm32) 0x10 (Some [0xAA; 0xBB]) 2)
     (idle_device [reply_with 0 0x00 []])) = Some (- EIO).
Proof.
  destruct (transport_code_never_returned (H := arm32)
              scripted (with_rc (-110) scripted) 0x10 (Some [0xAA; 0xBB]) 2
              (idle_device [reply_with 0 0x62 []]) eq_refl
              (same_but_rc_with_rc (-110) scripted))
    as (_ & _ & Hwrite & _).
  destruct (transport_code_never_returned (H := arm32)
              scripted (with_rc (-110) scripted) 0x10 (Some [0; 0]) 2
              (idle_device [reply_with 0 0x62 []; reply_with 0 0x62 [7; 8]])
              eq_refl (same_but_rc_with_rc (-110) scripted))
    as (_ & _ & _ & Hread).
  destruct (transport_code_never_returned (H := arm32)
              scripted (with_rc (-110) scripted) 0x10 (Some [0xAA; 0xBB]) 2
              (idle_device [reply_with 0 0x00 []]) eq_refl
              (same_but_rc_with_rc (-110) scripted))
    as (_ & _ & Hnack & _).
  split; [rewrite Hwrite; reflexivity|].
  split; [rewrite Hread; reflexivity|].
  rewrite Hnack. reflexivity.
Defined.

(** ** The locking discipline of the driver *)

Lemma locking_bind {A C : Type} h h' h'' (p : prog A) (f : A -> prog C) :
  locking h h' p ->
  (forall a, locking h' h'' (f a)) ->
  locking h h'' (p ≫= f).
Proof.
  change (p ≫= f) with (bind p f).
  intros Hp Hf. induction Hp; simpl; try (constructor; auto).
  apply Hf.
Qed.

Lemma locking_cyttsp4_spi_xfer_sync msg buf :
  locking true true (cyttsp4_spi_xfer_sync msg buf).
Proof.
  unfold cyttsp4_spi_xfer_sync. simpl. constructor. intros reply.
  destruct (negb _); constructor.
Qed.

(** A phase touches the bus and nothing else: it is run with the mutex
    held and leaves it held. *)
Lemma locking_cyttsp4_spi_xfer op reg buf length :
  locking true true (cyttsp4_spi_xfer op reg buf length).
Proof.
  rewrite cyttsp4_spi_xfer_unfold.
  repeat match goal with
         | |- locking _ _ (if ?c then _ else _) => destruct c
         | |- locking _ _ (match ?b with Some _ => _ | None => _ end) =>
             destruct b
         end;
    first [apply locking_ret | apply locking_cyttsp4_spi_xfer_sync].
Qed.

Lemma locking_cyttsp4_spi_read_block_data `{arch} addr length data :
  locking true true (cyttsp4_spi_read_block_data addr length data).
Proof.
  unfold cyttsp4_spi_read_block_data.
  eapply locking_bind; [apply locking_cyttsp4_spi_xfer|].
  intros [rc ?]. destruct (rc <? 0); [constructor|].
  eapply locking_bind; [apply locking_cyttsp4_spi_xfer|].
  intros [rc' ?]. destruct (rc' <? 0); [constructor|].
  destruct (rc' >? 0); constructor.
Qed.

Lemma locking_cyttsp4_spi_write_block_data `{arch} addr length data :
  locking true true (cyttsp4_spi_write_block_data addr length data).
Proof.
  unfold cyttsp4_spi_write_block_data.
  eapply locking_bind; [apply locking_cyttsp4_spi_xfer|].
  intros [rc ?]. destruct (rc <? 0); [constructor|].
  destruct (rc >? 0); constructor.
Qed.

(** The two operations take the mutex before the block transfer and give
    it back after it, whatever the block transfer returned. *)
Lemma locking_cyttsp4_spi_write `{arch} addr buf size :
  locking false false (cyttsp4_spi_write addr buf size).
Proof.
  unfold cyttsp4_spi_write.
  eapply locking_bind; [repeat constructor|]. intros _.
  eapply locking_bind; [repeat constructor|]. intros _.
  eapply locking_bind; [apply locking_cyttsp4_spi_write_block_data|].
  intros rc.
  eapply locking_bind; [repeat constructor|]. intros _.
  eapply locking_bind; [repeat constructor|]. intros _.
  constructor.
Qed.

Lemma locking_cyttsp4_spi_read `{arch} addr buf size :
  locking false false (cyttsp4_spi_read addr buf size).
Proof.
  unfold cyttsp4_spi_read.
  eapply locking_bind; [repeat constructor|]. intros _.
  eapply locking_bind; [repeat constructor|]. intros _.
  eapply locking_bind; [apply locking_cyttsp4_spi_read_block_data|].
  intros [rc buf'].
  eapply locking_bind; [repeat constructor|]. intros _.
  eapply locking_bind; [repeat constructor|]. intros _.
  constructor.
Qed.

Lemma locking_client `{arch} {A : Type} (p : prog A) :
  client p -> locking false false p.
Proof.
  induction 1 as [a|addr buf size k _ IH|addr buf size k _ IH].
  - constructor.
  - eapply locking_bind; [apply locking_cyttsp4_spi_write | exact IH].
  - eapply locking_bind; [apply locking_cyttsp4_spi_read | exact IH].
Qed.

(** ** Threads on one device *)

Section Serialization.
Context {B A : Type}.
Variable controller : B -> spi_message -> spi_reply * B.

(** One step keeps the invariant, and is a step the holder of the mutex
    allows. *)
Lemma step_mutex_inv owner (c c' : list (thread A) * device B) x :
  mutex_inv owner c ->
  step controller c x c' ->
  exists owner', next_owner owner x = Some owner' /\ mutex_inv owner' c'.
Proof.
  intros [Hlocked Hpool] Hstep.
  destruct Hstep as [pool d i t l d' t' Hi Ht]. simpl in *.
  pose proof (Hpool i t Hi) as Hok.
  pose proof (lookup_lt_Some _ _ _ Hi) as Hlt.
  assert (Hothers : forall o o' : option nat,
            (forall j, j <> i ->
               bool_decide (o' = Some j) = bool_decide (o = Some j)) ->
            (forall j u, pool !! j = Some u ->
               thread_ok (bool_decide (o = Some j)) u) ->
            thread_ok (bool_decide (o' = Some i)) t' ->
            forall j u, <[i:=t']> pool !! j = Some u ->
              thread_ok (bool_decide (o' = Some j)) u).
  { intros o o' Hsame Hall Hnew j u Hj.
    destruct (decide (j = i)) as [->|Hne].
    - rewrite list_lookup_insert_eq in Hj by assumption.
      injection Hj as <-. exact Hnew.
    - rewrite list_lookup_insert_ne in Hj by congruence.
      rewrite Hsame by assumption. apply Hall. exact Hj. }
  destruct Ht as [d k|d k|d k Hfree|d k|d msg k|d msg k reply b Hreply];
    simpl in Hok.
  - (* pm_runtime_get_noresume *)
    exists owner. split; [reflexivity|]. split; [exact Hlocked|].
    apply (Hothers owner owner); auto. simpl. inversion Hok; assumption.
  - (* pm_runtime_put_noidle *)
    exists owner. split; [reflexivity|]. split; [exact Hlocked|].
    apply (Hothers owner owner); auto. simpl. inversion Hok; assumption.
  - (* mutex_lock *)
    destruct owner as [o|]; [congruence|].
    exists (Some i). split; [reflexivity|]. split; [reflexivity|].
    apply (Hothers None (Some i)); auto.
    + intros j Hne. rewrite !bool_decide_eq_false_2; congruence.
    + rewrite bool_decide_eq_true_2 by reflexivity. simpl.
      inversion Hok; assumption.
  - (* mutex_unlock *)
    assert (Hown : owner = Some i).
    { destruct (decide (owner = Some i)) as [|Hne]; [assumption|].
      rewrite bool_decide_eq_false_2 in Hok by assumption. inversion Hok. }
    subst owner. exists None. simpl. rewrite decide_True by reflexivity.
    split; [reflexivity|]. split; [reflexivity|].
    apply (Hothers (Some i) None); auto.
    + intros j Hne. rewrite !bool_decide_eq_false_2; congruence.
    + rewrite bool_decide_eq_true_2 in Hok by reflexivity.
      rewrite bool_decide_eq_false_2 by discriminate. simpl.
      inversion Hok; assumption.
  - (* spi_sync: the message is handed over *)
    assert (Hown : owner = Some i).
    { destruct (decide (owner = Some i)) as [|Hne]; [assumption|].
      rewrite bool_decide_eq_false_2 in Hok by assumption. inversion Hok. }
    subst owner. exists (Some i). simpl. rewrite decide_True by reflexivity.
    split; [reflexivity|]. split; [exact Hlocked|].
    apply (Hothers (Some i) (Some i)); auto.
    rewrite bool_decide_eq_true_2 in * by reflexivity. simpl.
    split; [reflexivity|]. inversion Hok; assumption.
  - (* spi_sync: the reply comes back *)
    destruct Hok as [Hheld Hk].
    apply bool_decide_eq_true_1 in Hheld. subst owner.
    exists (Some i). simpl. rewrite decide_True by reflexivity.
    split; [reflexivity|]. split; [exact Hlocked|].
    apply (Hothers (Some i) (Some i)); auto.
    rewrite bool_decide_eq_true_2 by reflexivity. simpl. apply Hk.
Qed.

Lemma steps_mutex_inv owner (c c' : list (thread A) * device B) tr :
  mutex_inv owner c ->
  steps controller c tr c' ->
  serialized owner tr = true /\ exists owner', mutex_inv owner' c'.
Proof.
  intros Hinv Hsteps. revert owner Hinv.
  induction Hsteps as [c|c x c' tr c'' Hstep _ IH]; intros owner Hinv.
  - split; [reflexivity|]. exists owner. exact Hinv.
  - destruct (step_mutex_inv owner c c' x Hinv Hstep) as (owner' & Hnext & Hinv').
    simpl. rewrite Hnext. apply IH. exact Hinv'.
Qed.

(** Under the invariant the thread inside [spi_sync] is the owner of the
    mutex. *)
Lemma mutex_inv_in_flight owner (pool : list (thread A)) (d : device B) i msg k :
  mutex_inv owner (pool, d) ->
  pool !! i = Some (InFlight msg k) ->
  owner = Some i /\ locked d = true.
Proof.
  intros [Hlocked Hpool] Hi. simpl in *.
  destruct (Hpool i _ Hi) as [Hheld _].
  apply bool_decide_eq_true_1 in Hheld. subst owner. auto.
Qed.

(** A primitive that is one step: the thread takes it, which [step_tac]
    shows, and the rest of the run is the rest of the steps. *)
Ltac run_one_step IH Hi Hlt Hrun step_tac :=
  match type of Hrun with
  | emit _ (run ?c ?k ?d) = _ =>
      let Hk := fresh "Hk" in
      destruct (run c k d) as [[[?a1 ?d1] ?evs1]|] eqn:Hk; [|discriminate];
      injection Hrun as <- <- <-; simpl;
      eapply steps_cons; [eapply step_at; [exact Hi | step_tac]|];
      match goal with
      | |- steps _ (<[?i := _]> ?pool, _) _ (<[_ := ?t]> _, _) =>
          rewrite <- (list_insert_insert_eq pool i t (Running k));
          apply IH; [apply list_lookup_insert_eq; exact Hlt | exact Hk]
      end
  end.

(** The interleaving semantics agrees with the interpreter: the run of one
    thread is a sequence of steps of that thread, with the same effects. *)
Lemma run_steps (p : prog A) (pool : list (thread A)) i d a d' evs :
  pool !! i = Some (Running p) ->
  run controller p d = Some (a, d', evs) ->
  steps controller (pool, d) (labels_of i evs)
    (<[i := Running (Ret a)]> pool, d').
Proof.
  revert pool d evs.
  induction p as [a0|msg k IH|k IH|k IH|k IH|k IH];
    intros pool d evs Hi Hrun; simpl in Hrun;
    pose proof (lookup_lt_Some _ _ _ Hi) as Hlt.
  - injection Hrun as <- <- <-. simpl.
    rewrite list_insert_id by assumption. constructor.
  - destruct (controller (bus d) msg) as [reply b] eqn:Hreply.
    destruct (run controller (k reply) _) as [[[a1 d1] evs1]|] eqn:Hk;
      [|discriminate].
    injection Hrun as <- <- <-. simpl.
    eapply steps_cons; [eapply step_at; [exact Hi | apply step_begin]|].
    eapply steps_cons.
    { eapply step_at; [apply list_lookup_insert_eq; exact Hlt|].
      apply step_end. exact Hreply. }
    rewrite list_insert_insert_eq.
    rewrite <- (list_insert_insert_eq pool i (Running (Ret a1)) (Running (k reply))).
    apply (IH reply); [|exact Hk].
    apply list_lookup_insert_eq. exact Hlt.
  - destruct (locked d) eqn:Hfree; [discriminate|].
    run_one_step IH Hi Hlt Hrun ltac:(apply step_lock; exact Hfree).
  - run_one_step IH Hi Hlt Hrun ltac:(apply step_unlock).
  - run_one_step IH Hi Hlt Hrun ltac:(apply step_pm_get).
  - run_one_step IH Hi Hlt Hrun ltac:(apply step_pm_put).
Qed.
End Serialization.

(** One thread: a call takes the mutex, makes its exchanges, and gives the
    mutex back, whatever it returns. *)
Lemma cyttsp4_spi_write_bracket `{arch} {B : Type}
    (controller : B -> spi_message -> spi_reply * B) addr buf size d :
  locked d = false ->
  exists rc d1 xs,
    run controller (cyttsp4_spi_write addr buf size) d =
      Some (rc, d1,
            [EvPmGet; EvLock] ++ sync_events xs ++ [EvUnlock; EvPmPut]) /\
    locked d1 = false.
Proof.
  intros Hfree. rewrite run_cyttsp4_spi_write by assumption.
  destruct (_ >? _).
  - exists (- EINVAL), (left (bus d) d), []. split; reflexivity.
  - cbv zeta. destruct (controller _ _) as [reply b].
    eexists _, _, [(_, _)]. split; reflexivity.
Qed.

Lemma cyttsp4_spi_read_bracket `{arch} {B : Type}
    (controller : B -> spi_message -> spi_reply * B) addr buf size d :
  locked d = false ->
  exists r d1 xs,
    run controller (cyttsp4_spi_read addr buf size) d =
      Some (r, d1,
            [EvPmGet; EvLock] ++ sync_events xs ++ [EvUnlock; EvPmPut]) /\
    locked d1 = false.
Proof.
  intros Hfree. rewrite run_cyttsp4_spi_read by assumption. cbv zeta.
  destruct (controller (bus d) _) as [reply1 b1].
  assert (Hrej : exists r d1 xs,
    Some (- EINVAL, buf, left b1 d,
          [EvPmGet; EvLock; EvSync (wr_message addr None 0) reply1;
           EvUnlock; EvPmPut]) =
      Some (r, d1,
            [EvPmGet; EvLock] ++ sync_events xs ++ [EvUnlock; EvPmPut]) /\
    locked d1 = false).
  { eexists _, _, [(_, _)]. split; reflexivity. }
  destruct buf as [data|]; [|exact Hrej].
  destruct (_ >? _); [exact Hrej|].
  destruct (controller b1 _) as [reply2 b2].
  eexists _, _, [(_, _); (_, _)]. split; reflexivity.
Qed.

(** C8.  Run by one thread, each of the two operations takes the mutex
    of the device before its first exchange and has given it back when it
    returns, on every path.  Run by any number of threads that use the
    device through the two operations, in any interleaving, every exchange
    begins and ends in the hands of the thread that holds the mutex, at
    most one thread is inside [spi_sync] at a time, and the mutex is held
    while it is. *)
Theorem transfers_hold_the_mutex `{arch} {B A : Type}
    (controller : B -> spi_message -> spi_reply * B)
    (pool : list (prog A)) d tr pool' d' addr buf size :
  locked d = false ->
  Forall client pool ->
  steps controller (Running <$> pool, d) tr (pool', d') ->
  (exists rc d1 xs,
     run controller (cyttsp4_spi_write addr buf size) d =
       Some (rc, d1,
             [EvPmGet; EvLock] ++ sync_events xs ++ [EvUnlock; EvPmPut]) /\
     locked d1 = false) /\
  (exists r d1 xs,
     run controller (cyttsp4_spi_read addr buf size) d =
       Some (r, d1,
             [EvPmGet; EvLock] ++ sync_events xs ++ [EvUnlock; EvPmPut]) /\
     locked d1 = false) /\
  serialized None tr = true /\
  (forall i j mi ki mj kj,
     pool' !! i = Some (InFlight mi ki) ->
     pool' !! j = Some (InFlight mj kj) ->
     i = j) /\
  (forall i msg k, pool' !! i = Some (InFlight msg k) -> locked d' = true).
Proof.
  intros Hfree Hclients Hsteps.
  split; [apply cyttsp4_spi_write_bracket; exact Hfree|].
  split; [apply cyttsp4_spi_read_bracket; exact Hfree|].
  assert (Hinit : mutex_inv None (Running <$> pool, d)).
  { split; [exact Hfree|]. simpl. intros j t Hj.
    rewrite list_lookup_fmap in Hj.
    destruct (pool !! j) as [p|] eqn:Hp; [|discriminate].
    injection Hj as <-. simpl.
    apply locking_client. eapply Forall_lookup_1; eassumption. }
  destruct (steps_mutex_inv controller None _ _ tr Hinit Hsteps)
    as (Hserial & owner & Hinv).
  split; [exact Hserial|]. split.
  - intros i j mi ki mj kj Hi Hj.
    destruct (mutex_inv_in_flight owner pool' d' i mi ki Hinv Hi) as [Hoi _].
    destruct (mutex_inv_in_flight owner pool' d' j mj kj Hinv Hj) as [Hoj _].
    congruence.
  - intros i msg k Hi.
    apply (mutex_inv_in_flight owner pool' d' i msg k Hinv Hi).
Qed.

(** The schedule [writer_in_flight] of the two clients. *)
Lemma transfers_hold_the_mutex_witness :
  exists pool' d',
    steps scripted
      (Running <$> two_clients, idle_device [reply_with 0 0x62 []])
      writer_in_flight (pool', d') /\
    serialized None writer_in_flight = true /\
    (exists msg k, pool' !! 0%nat = Some (InFlight msg k)) /\
    locked d' = true.
Proof.
  assert (Hclients : Forall (client (H := arm32)) two_clients).
  { constructor; [|constructor; [|constructor]].
    - apply (client_write (H := arm32)). intros rc. apply client_ret.
    - apply (client_read (H := arm32)). intros r. apply client_ret. }
  eassert (Hsteps : steps scripted
             (Running <$> two_clients, idle_device [reply_with 0 0x62 []])
             writer_in_flight (_, _)).
  { eapply steps_cons;
      [eapply step_at; [reflexivity | apply step_pm_get]|].
    eapply steps_cons;
      [eapply step_at; [reflexivity | apply step_pm_get]|].
    eapply steps_cons;
      [eapply step_at; [reflexivity | apply step_lock; reflexivity]|].
    eapply steps_cons;
      [eapply step_at; [reflexivity | apply step_begin]|].
    apply steps_nil. }
  destruct (transfers_hold_the_mutex (H := arm32) scripted two_clients
              (idle_device [reply_with 0 0x62 []]) writer_in_flight _ _
              0 None 0 eq_refl Hclients Hsteps)
    as (_ & _ & Hserial & _ & Hheld).
  eexists _, _. split; [exact Hsteps|]. split; [exact Hserial|].
  split.
  - eexists _, _. reflexivity.
  - eapply (Hheld 0%nat). reflexivity.
Defined.

(** * Further properties of the transfer functions *)

(** ** Exchanges per call *)

(** A phase makes at most one exchange: none exactly when it rejects the
    request with [-EINVAL], leaving device and buffer as they were, and
    otherwise one, after which it returns 0 or 1. *)
Theorem xfer_exchanges_at_most_once {B : Type}
    (controller : B -> spi_message -> spi_reply * B) op reg buf length d :
  exists rc buf' d' evs,
    run controller (cyttsp4_spi_xfer op reg buf length) d =
      Some (rc, buf', d', evs) /\
    ((rc = - EINVAL /\ evs = [] /\ d' = d /\ buf' = buf) \/
     (exists msg reply, evs = [EvSync msg reply] /\ (rc = 0 \/ rc = 1))).
Proof.
  rewrite cyttsp4_spi_xfer_unfold.
  repeat match goal with
         | |- context [run _ (if ?c then _ else _) _] => destruct c
         | |- context [run _ (match ?b with Some _ => _ | None => _ end) _] =>
             destruct b
         end;
    try (eexists _, _, _, _; split; [reflexivity|]; left; auto; fail);
    rewrite run_xfer_sync; destruct (controller _ _) as [reply b];
    eexists _, _, _, _; (split; [reflexivity|]); right;
    eexists _, _; (split; [reflexivity|]);
    destruct (_ =? CY_SPI_SYNC_ACK); auto.
Qed.

(** Neither operation retries: a write makes at most one exchange, none
    exactly when it returns [-EINVAL]; a read makes one or two, one exactly
    when it returns [-EINVAL]. *)
Theorem operations_never_retry `{arch} {B : Type}
    (controller : B -> spi_message -> spi_reply * B) addr buf size d :
  locked d = false ->
  let w := run controller (cyttsp4_spi_write addr buf size) d in
  let r := run controller (cyttsp4_spi_read addr buf size) d in
  (List.length (exchanges (events_of w)) <= 1)%nat /\
  (exchanges (events_of w) = [] <-> outcome w = Some (- EINVAL)) /\
  (1 <= List.length (exchanges (events_of r)) <= 2)%nat /\
  (List.length (exchanges (events_of r)) = 1%nat <->
   fst <$> outcome r = Some (- EINVAL)).
Proof.
  intros Hfree w r. subst w r.
  rewrite run_cyttsp4_spi_write, run_cyttsp4_spi_read by assumption.
  cbv zeta. split; [|split; [|split]].
  - destruct (_ >? _); [simpl; lia|].
    destruct (controller _ _) as [reply b]. simpl. lia.
  - destruct (_ >? _); [simpl; tauto|].
    destruct (controller _ _) as [reply b]. simpl.
    destruct (_ =? CY_SPI_SYNC_ACK); split; discriminate.
  - destruct (controller (bus d) _) as [reply1 b1].
    destruct buf as [data|]; [|simpl; lia].
    destruct (_ >? _); [simpl; lia|].
    destruct (controller b1 _) as [reply2 b2]. simpl. lia.
  - destruct (controller (bus d) _) as [reply1 b1].
    destruct buf as [data|]; [|simpl; tauto].
    destruct (_ >? _); [simpl; tauto|].
    destruct (controller b1 _) as [reply2 b2]. simpl.
    destruct (_ =? CY_SPI_SYNC_ACK); split; discriminate.
Qed.

(** A write of two bytes and a read without a buffer. *)
Lemma operations_never_retry_witness :
  List.length (exchanges (events_of (run scripted
     (cyttsp4_spi_write (H := arm32) 0x10 (Some [0xAA; 0xBB]) 2)
     (idle_device [reply_with 0 0x00 []])))) = 1%nat /\
  List.length (exchanges (events_of (run scripted
     (cyttsp4_spi_read (H := arm32) 0x10 None 2)
     (idle_device [reply_with 0 0x00 []])))) = 1%nat.
Proof.
  destruct (operations_never_retry (H := arm32) scripted 0x10
              (Some [0xAA; 0xBB]) 2 (idle_device [reply_with 0 0x00 []])
              eq_refl) as (Hw & _).
  destruct (operations_never_retry (H := arm32) scripted 0x10
              None 2 (idle_device [reply_with 0 0x00 []])
              eq_refl) as (_ & _ & _ & Hr).
  split; [reflexivity|]. apply Hr. reflexivity.
Defined.

(** ** What the acknowledgment is read from *)

(** For the messages of the driver the sync byte is the first byte
    received during the header transfer, as a [u8]; when nothing was
    received it is the 0 that [memset] left in [rd_hdr_buf]. *)
Lemma rd_hdr_sync_wr_message reg buf length reply :
  rd_hdr_sync (wr_message reg buf length) reply =
    match hd [] (rx_bytes reply) with
    | b0 :: _ => to_u8 b0
    | [] => 0
    end.
Proof.
  unfold rd_hdr_sync, wr_message.
  destruct buf as [b|]; simpl;
    destruct (hd [] (rx_bytes reply)) as [|b0 [|b1 l]]; reflexivity.
Qed.

Lemma rd_hdr_sync_rd_message length reply :
  rd_hdr_sync (rd_message length) reply =
    match hd [] (rx_bytes reply) with
    | b0 :: _ => to_u8 b0
    | [] => 0
    end.
Proof.
  unfold rd_hdr_sync, rd_message. simpl.
  destruct (hd [] (rx_bytes reply)) as [|b0 l]; reflexivity.
Qed.

(** A write that passes the length check succeeds exactly when the first
    byte received during the header transfer is [0x62] (as a [u8]); the
    second header byte and the bytes received during the payload play no
    part.  When the header transfer received nothing, as after a failed
    [spi_sync], the zeroed [rd_hdr_buf] makes the write return [-EIO]. *)
Theorem write_ack_is_first_header_byte `{arch} {B : Type}
    (controller : B -> spi_message -> spi_reply * B)
    addr buf size d reply b :
  locked d = false ->
  INT_MIN <= size ->
  size + CY_SPI_WR_HEADER_BYTES <= CY_SPI_DATA_SIZE ->
  controller (bus d) (wr_message addr buf size) = (reply, b) ->
  (outcome (run controller (cyttsp4_spi_write addr buf size) d) = Some 0 <->
   exists b0 rest,
     hd [] (rx_bytes reply) = b0 :: rest /\ b0 mod 256 = CY_SPI_SYNC_ACK) /\
  (hd [] (rx_bytes reply) = [] ->
   outcome (run controller (cyttsp4_spi_write addr buf size) d) =
     Some (- EIO)).
Proof.
  intros Hfree Hlo Hfit Hreply.
  unfold CY_SPI_WR_HEADER_BYTES, CY_SPI_DATA_SIZE in Hfit.
  rewrite run_cyttsp4_spi_write, wr_length_check
    by (try assumption; unfold CY_SPI_WR_HEADER_BYTES, INT_MAX; lia).
  rewrite (to_int_small size) by (unfold INT_MAX; lia).
  destruct (_ >? _) eqn:Hcheck;
    [unfold CY_SPI_WR_HEADER_BYTES, CY_SPI_DATA_SIZE in Hcheck; lia|].
  cbv zeta. rewrite Hreply, rd_hdr_sync_wr_message. simpl.
  destruct (hd [] (rx_bytes reply)) as [|b0 rest].
  - split; [|reflexivity].
    split; [discriminate|]. intros (b0 & rest & Hnil & _). discriminate Hnil.
  - split; [|discriminate].
    unfold to_u8. destruct (b0 mod 256 =? CY_SPI_SYNC_ACK) eqn:Hack.
    + split; [|reflexivity]. intros _. exists b0, rest.
      split; [reflexivity|]. lia.
    + split; [discriminate|]. intros (b0' & rest' & [= <- <-] & Hb0). lia.
Qed.

(** A write answered with [0x62; 0xFF] in the header, and one whose
    exchange received nothing while [spi_sync] failed. *)
Lemma write_ack_is_first_header_byte_witness :
  outcome (run scripted
     (cyttsp4_spi_write (H := arm32) 0x10 (Some [0xAA; 0xBB]) 2)
     (idle_device [{| sync_rc := 0; rx_bytes := [[0x62; 0xFF]; [1; 2]] |}])) =
    Some 0 /\
  outcome (run scripted
     (cyttsp4_spi_write (H := arm32) 0x10 (Some [0xAA; 0xBB]) 2)
     (idle_device [{| sync_rc := - EIO; rx_bytes := [] |}])) = Some (- EIO).
Proof.
  split.
  - apply (write_ack_is_first_header_byte (H := arm32) scripted 0x10
             (Some [0xAA; 0xBB]) 2
             (idle_device [{| sync_rc := 0; rx_bytes := [[0x62; 0xFF]; [1; 2]] |}])
             {| sync_rc := 0; rx_bytes := [[0x62; 0xFF]; [1; 2]] |} []);
      [reflexivity | vm_compute; discriminate | vm_compute; discriminate
      | reflexivity |].
    exists 0x62, [0xFF]. split; reflexivity.
  - apply (write_ack_is_first_header_byte (H := arm32) scripted 0x10
             (Some [0xAA; 0xBB]) 2
             (idle_device [{| sync_rc := - EIO; rx_bytes := [] |}])
             {| sync_rc := - EIO; rx_bytes := [] |} []);
      [reflexivity | vm_compute; discriminate | vm_compute; discriminate
      | reflexivity | reflexivity].
Defined.

(** ** What a read leaves in the buffer *)

(** A read whose data phase is exchanged leaves in the caller's buffer the
    first [size] bytes received during the data transfer, followed by what
    the buffer held beyond them.  The bytes of the response header are not
    among them, and the buffer is overwritten whether the data phase was
    acknowledged or not: the value returned is not looked at here. *)
Theorem read_leaves_data_transfer `{arch} {B : Type}
    (controller : B -> spi_message -> spi_reply * B)
    addr data size d reply1 b1 reply2 b2 hdr_rx rx more :
  locked d = false ->
  0 <= size ->
  size + CY_SPI_RD_HEADER_BYTES <= CY_SPI_DATA_SIZE ->
  (Z.to_nat size <= List.length data)%nat ->
  controller (bus d) (wr_message addr None 0) = (reply1, b1) ->
  controller b1 (rd_message size) = (reply2, b2) ->
  rx_bytes reply2 = hdr_rx :: rx :: more ->
  (Z.to_nat size <= List.length rx)%nat ->
  exists rc buf',
    outcome (run controller (cyttsp4_spi_read addr (Some data) size) d) =
      Some (rc, Some buf') /\
    buf' = (to_u8 <$> take (Z.to_nat size) rx) ++ drop (Z.to_nat size) data /\
    List.length buf' = List.length data.
Proof.
  intros Hfree Hpos Hfit Hdata H1 H2 Hrx Hlen.
  unfold CY_SPI_RD_HEADER_BYTES, CY_SPI_DATA_SIZE in Hfit.
  rewrite run_cyttsp4_spi_read, rd_length_check
    by (try assumption; unfold CY_SPI_RD_HEADER_BYTES, INT_MIN, INT_MAX; lia).
  rewrite (to_int_small size) by (unfold INT_MIN, INT_MAX; lia).
  cbv zeta. rewrite H1.
  destruct (_ >? _) eqn:Hcheck;
    [unfold CY_SPI_RD_HEADER_BYTES, CY_SPI_DATA_SIZE in Hcheck; lia|].
  rewrite H2. simpl. eexists _, _. split; [reflexivity|].
  rewrite Hrx. simpl.
  rewrite to_unsigned_small by (unfold INT_MAX; lia).
  unfold blit. rewrite length_fmap, length_take, Nat.min_l by assumption.
  split; [reflexivity|].
  rewrite length_app, length_fmap, length_take, length_drop. lia.
Qed.

(** A read of two bytes into a buffer of four, not acknowledged. *)
Lemma read_leaves_data_transfer_witness :
  snd <$> outcome (run scripted
     (cyttsp4_spi_read (H := arm32) 0x10 (Some [1; 2; 3; 4]) 2)
     (idle_device [reply_with 0 0x62 []; reply_with 0 0x00 [7; 8; 9]])) =
    Some (Some [7; 8; 3; 4]).
Proof.
  destruct (read_leaves_data_transfer (H := arm32) scripted 0x10
              [1; 2; 3; 4] 2
              (idle_device [reply_with 0 0x62 []; reply_with 0 0x00 [7; 8; 9]])
              (reply_with 0 0x62 []) [reply_with 0 0x00 [7; 8; 9]]
              (reply_with 0 0x00 [7; 8; 9]) [] [0x00; 0] [7; 8; 9] [])
    as (rc & buf' & Hrun & -> & _);
    [reflexivity | vm_compute; discriminate | vm_compute; discriminate
    | simpl; lia | reflexivity | reflexivity | reflexivity | simpl; lia |].
  rewrite Hrun. reflexivity.
Defined.

(** ** The sizes the length check rejects *)

Lemma to_int_wrapped z :
  INT_MAX < z <= INT_MAX + 2 ^ 31 -> to_int z = z - 2 ^ 32.
Proof.
  unfold to_int, INT_MAX. intros.
  replace (z + 2 ^ 31) with (z + 2 ^ 31 - 2 ^ 32 + 1 * 2 ^ 32) by lia.
  rewrite Z.mod_add, Z.mod_small; lia.
Qed.

(** Over all of [int], the sizes a write rejects are those from 767 to
    [INT_MAX - 2], and the sizes a read with a buffer rejects are those
    from 768 to [INT_MAX - 1]: negative sizes pass the check, and so do the
    sizes whose sum with the header length wraps. *)
Theorem rejected_sizes `{arch} {B : Type}
    (controller : B -> spi_message -> spi_reply * B) addr buf data size d :
  locked d = false ->
  INT_MIN <= size <= INT_MAX ->
  (outcome (run controller (cyttsp4_spi_write addr buf size) d) =
     Some (- EINVAL) <->
   CY_SPI_DATA_SIZE - CY_SPI_WR_HEADER_BYTES < size <=
     INT_MAX - CY_SPI_WR_HEADER_BYTES) /\
  (fst <$> outcome (run controller (cyttsp4_spi_read addr (Some data) size) d) =
     Some (- EINVAL) <->
   CY_SPI_DATA_SIZE - CY_SPI_RD_HEADER_BYTES < size <=
     INT_MAX - CY_SPI_RD_HEADER_BYTES).
Proof.
  intros Hfree Hsize.
  rewrite run_cyttsp4_spi_write, run_cyttsp4_spi_read by assumption.
  rewrite (to_int_small size) by assumption. cbv zeta.
  unfold CY_SPI_WR_HEADER_BYTES, CY_SPI_RD_HEADER_BYTES, CY_SPI_DATA_SIZE.
  unfold INT_MIN, INT_MAX in *.
  split.
  - destruct (Z_le_gt_dec (size + 2) (2 ^ 31 - 1)) as [Hle|Hgt].
    + rewrite (to_int_small (size + 2)) by (unfold INT_MIN, INT_MAX; lia).
      destruct (_ >? _) eqn:Hcheck.
      * simpl. split; [lia | reflexivity].
      * destruct (controller _ _) as [reply b]. simpl.
        destruct (_ =? CY_SPI_SYNC_ACK); (split; [discriminate | lia]).
    + rewrite (to_int_wrapped (size + 2)) by (unfold INT_MAX; lia).
      destruct (_ >? _) eqn:Hcheck; [lia|].
      destruct (controller _ _) as [reply b]. simpl.
      destruct (_ =? CY_SPI_SYNC_ACK); (split; [discriminate | lia]).
  - destruct (controller (bus d) _) as [reply1 b1].
    destruct (Z_le_gt_dec (size + 1) (2 ^ 31 - 1)) as [Hle|Hgt].
    + rewrite (to_int_small (size + 1)) by (unfold INT_MIN, INT_MAX; lia).
      destruct (_ >? _) eqn:Hcheck.
      * simpl. split; [lia | reflexivity].
      * destruct (controller b1 _) as [reply2 b2]. simpl.
        destruct (_ =? CY_SPI_SYNC_ACK); (split; [discriminate | lia]).
    + rewrite (to_int_wrapped (size + 1)) by (unfold INT_MAX; lia).
      destruct (_ >? _) eqn:Hcheck; [lia|].
      destruct (controller b1 _) as [reply2 b2]. simpl.
      destruct (_ =? CY_SPI_SYNC_ACK); (split; [discriminate | lia]).
Qed.

(** Sizes 767 and 768 are rejected, size -1 is not. *)
Lemma rejected_sizes_witness :
  outcome (run scripted
     (cyttsp4_spi_write (H := arm32) 0x10 (Some [0xAA]) 767)
     (idle_device [reply_with 0 0x62 []])) = Some (- EINVAL) /\
  fst <$> outcome (run scripted
     (cyttsp4_spi_read (H := arm32) 0x10 (Some [0]) 768)
     (idle_device [reply_with 0 0x62 []])) = Some (- EINVAL) /\
  outcome (run scripted
     (cyttsp4_spi_write (H := arm32) 0x10 (Some [0xAA]) (-1))
     (idle_device [reply_with 0 0x62 []])) <> Some (- EINVAL).
Proof.
  split; [|split].
  - apply (rejected_sizes (H := arm32) scripted 0x10 (Some [0xAA]) [] 767
             (idle_device [reply_with 0 0x62 []]));
      [reflexivity | vm_compute; split; discriminate
      | vm_compute; split; [reflexivity | discriminate]].
  - apply (rejected_sizes (H := arm32) scripted 0x10 None [0] 768
             (idle_device [reply_with 0 0x62 []]));
      [reflexivity | vm_compute; split; discriminate
      | vm_compute; split; [reflexivity | discriminate]].
  - intros Hrej.
    apply (rejected_sizes (H := arm32) scripted 0x10 (Some [0xAA]) [] (-1)
             (idle_device [reply_with 0 0x62 []])) in Hrej;
      [|reflexivity | vm_compute; split; discriminate].
    destruct Hrej as [Hlow _]. vm_compute in Hlow. discriminate Hlow.
Defined.

(** A negative size passes the check and becomes the [unsigned] length of
    the data transfer: the write asks the controller to send, and the read
    to receive into the caller's buffer, [2 ^ 32 + size] bytes, far more
    than the frame the check is meant to enforce. *)
Theorem negative_size_becomes_huge_transfer `{arch} {B : Type}
    (controller : B -> spi_message -> spi_reply * B) addr data size d :
  locked d = false ->
  INT_MIN <= size < 0 ->
  (exists rc d' reply payload,
     run controller (cyttsp4_spi_write addr (Some data) size) d =
       Some (rc, d',
             [EvPmGet; EvLock; EvSync [wr_hdr_xfer addr; payload] reply;
              EvUnlock; EvPmPut]) /\
     tx_buf payload = Some data /\
     len payload = 2 ^ 32 + size /\
     CY_SPI_DATA_SIZE < len payload) /\
  (exists rc buf' d' reply1 reply2 payload,
     run controller (cyttsp4_spi_read addr (Some data) size) d =
       Some (rc, buf', d',
             [EvPmGet; EvLock; EvSync (wr_message addr None 0) reply1;
              EvSync [rd_hdr_xfer; payload] reply2; EvUnlock; EvPmPut]) /\
     rx_buf payload = Some data_buf /\
     len payload = 2 ^ 32 + size /\
     CY_SPI_DATA_SIZE < len payload).
Proof.
  intros Hfree [Hlo Hneg]. unfold INT_MIN in Hlo.
  assert (Hlen : to_unsigned size = 2 ^ 32 + size).
  { unfold to_unsigned.
    replace size with (2 ^ 32 + size + (-1) * 2 ^ 32) at 1 by lia.
    rewrite Z.mod_add by lia. apply Z.mod_small. lia. }
  split.
  - rewrite run_cyttsp4_spi_write, wr_length_check
      by (try assumption; unfold INT_MIN, INT_MAX, CY_SPI_WR_HEADER_BYTES; lia).
    rewrite (to_int_small size) by (unfold INT_MIN, INT_MAX; lia).
    destruct (_ >? _) eqn:Hcheck;
      [unfold CY_SPI_WR_HEADER_BYTES, CY_SPI_DATA_SIZE in Hcheck; lia|].
    cbv zeta. unfold wr_message.
    destruct (controller _ _) as [reply b].
    eexists _, _, _, _. split; [reflexivity|]. split; [reflexivity|].
    unfold wr_data_xfer, len. rewrite Hlen. unfold CY_SPI_DATA_SIZE. lia.
  - rewrite run_cyttsp4_spi_read, rd_length_check
      by (try assumption; unfold INT_MIN, INT_MAX, CY_SPI_RD_HEADER_BYTES; lia).
    rewrite (to_int_small size) by (unfold INT_MIN, INT_MAX; lia).
    cbv zeta. destruct (controller (bus d) _) as [reply1 b1].
    destruct (_ >? _) eqn:Hcheck;
      [unfold CY_SPI_RD_HEADER_BYTES, CY_SPI_DATA_SIZE in Hcheck; lia|].
    unfold rd_message.
    destruct (controller b1 _) as [reply2 b2].
    eexists _, _, _, _, _, _. split; [reflexivity|]. split; [reflexivity|].
    unfold rd_data_xfer, len. rewrite Hlen. unfold CY_SPI_DATA_SIZE. lia.
Qed.

(** A write of size -1. *)
Lemma negative_size_becomes_huge_transfer_witness :
  exists rc d' reply payload,
    run scripted (cyttsp4_spi_write (H := arm32) 0x10 (Some [0xAA]) (-1))
      (idle_device [reply_with 0 0x62 []]) =
      Some (rc, d',
            [EvPmGet; EvLock; EvSync [wr_hdr_xfer 0x10; payload] reply;
             EvUnlock; EvPmPut]) /\
    len payload = 4294967295.
Proof.
  destruct (negative_size_becomes_huge_transfer (H := arm32) scripted 0x10
              [0xAA] (-1) (idle_device [reply_with 0 0x62 []]))
    as ((rc & d' & reply & payload & Hrun & _ & Hlen & _) & _);
    [reflexivity | vm_compute; split; [discriminate | reflexivity] |].
  exists rc, d', reply, payload. split; [exact Hrun | exact Hlen].
Defined.

(** * Further properties of the locked section *)

(** ** One thread *)

Lemma left_spec {B : Type} (b : B) (d : device B) :
  0 <= usage_count d ->
  bus (left b d) = b /\
  locked (left b d) = false /\
  usage_count (left b d) = usage_count d.
Proof.
  intros Hpos. unfold left, pm_put, pm_get. simpl.
  destruct (usage_count d + 1 =? 0) eqn:Hzero; [lia|].
  repeat split. lia.
Qed.

(** A thread that uses the device through the two operations, any number
    of times, never blocks on its own mutex: run alone from a free mutex it
    comes to its end, and it leaves the mutex free and the runtime-PM usage
    counter where it found it, whatever the calls returned. *)
Theorem client_runs_to_its_end `{arch} {B A : Type}
    (controller : B -> spi_message -> spi_reply * B) (p : prog A) d :
  client p ->
  locked d = false ->
  0 <= usage_count d ->
  exists a d' evs,
    run controller p d = Some (a, d', evs) /\
    locked d' = false /\
    usage_count d' = usage_count d.
Proof.
  intros Hclient. revert d.
  induction Hclient as [a|addr buf size k _ IH|addr buf size k _ IH];
    intros d Hfree Hpos.
  - exists a, d, []. split; [reflexivity|]. split; [assumption | reflexivity].
  - rewrite run_bind, run_cyttsp4_spi_write by assumption.
    destruct (_ >? _).
    + destruct (left_spec (bus d) d Hpos) as (_ & Hl & Hu). simpl.
      destruct (IH (- EINVAL) (left (bus d) d)) as (a & d' & evs & -> & ? & ?);
        [assumption | lia |].
      simpl. eexists _, _, _. split; [reflexivity|]. split; [assumption | lia].
    + cbv zeta. destruct (controller _ _) as [reply b].
      destruct (left_spec b d Hpos) as (_ & Hl & Hu). simpl.
      match goal with
      | |- context [run controller (k ?rc) _] =>
          destruct (IH rc (left b d)) as (a & d' & evs & -> & ? & ?);
            [assumption | lia |]
      end.
      simpl. eexists _, _, _. split; [reflexivity|]. split; [assumption | lia].
  - rewrite run_bind.
    destruct (cyttsp4_spi_read_bracket controller addr buf size d Hfree)
      as (r & d1 & xs & Hrun & Hl).
    assert (Hu : usage_count d1 = usage_count d).
    { rewrite run_cyttsp4_spi_read in Hrun by assumption. cbv zeta in Hrun.
      destruct (controller (bus d) _) as [reply1 b1].
      assert (Hrej : forall (x : Z * buffer) evs,
                Some (x, left b1 d, evs) = Some (r, d1, [EvPmGet; EvLock] ++ sync_events xs ++ [EvUnlock; EvPmPut]) ->
                usage_count d1 = usage_count d).
      { intros x evs [= _ <- _]. apply left_spec. assumption. }
      destruct buf as [data|]; [|eapply Hrej; exact Hrun].
      destruct (_ >? _); [eapply Hrej; exact Hrun|].
      destruct (controller b1 _) as [reply2 b2].
      injection Hrun as _ <- _. apply left_spec. assumption. }
    rewrite Hrun. simpl.
    destruct (IH r d1) as (a & d' & evs & -> & ? & ?); [assumption | lia |].
    simpl. eexists _, _, _. split; [reflexivity|]. split; [assumption | lia].
Qed.

(** A write followed by a read of what was written to. *)
Lemma client_runs_to_its_end_witness :
  exists a d' evs,
    run scripted
      (cyttsp4_spi_write (H := arm32) 0x10 (Some [0xAA; 0xBB]) 2 ≫= fun _ =>
       cyttsp4_spi_read (H := arm32) 0x10 (Some [0; 0]) 2 ≫= fun r =>
       Ret r.2)
      (idle_device
         [reply_with 0 0x62 []; reply_with 0 0x62 []; reply_with 0 0x62 [7; 8]]) =
      Some (a, d', evs) /\
    locked d' = false /\
    usage_count d' = 0.
Proof.
  apply (client_runs_to_its_end (H := arm32) scripted);
    [|reflexivity | vm_compute; discriminate].
  apply (client_write (H := arm32)). intros rc.
  apply (client_read (H := arm32)). intros r. apply client_ret.
Defined.

(** ** Several threads *)

Lemma clients_mutex_inv `{arch} {B A : Type} (pool : list (prog A))
    (d : device B) :
  locked d = false ->
  Forall client pool ->
  mutex_inv None (Running <$> pool, d) /\
  owner_alive None (Running <$> pool).
Proof.
  intros Hfree Hclients. split; [split; [exact Hfree|]|intros i [=]].
  simpl. intros j t Hj.
  rewrite list_lookup_fmap in Hj.
  destruct (pool !! j) as [p|] eqn:Hp; [|discriminate].
  injection Hj as <-. simpl.
  apply locking_client. eapply Forall_lookup_1; eassumption.
Qed.

Section Progress.
Context {B A : Type}.
Variable controller : B -> spi_message -> spi_reply * B.

Lemma step_owner_alive owner owner' (c c' : list (thread A) * device B) x :
  owner_alive owner c.1 ->
  step controller c x c' ->
  next_owner owner x = Some owner' ->
  owner_alive owner' c'.1.
Proof.
  intros Halive Hstep Hnext.
  destruct Hstep as [pool d i t l d' t' Hi Ht]. simpl in *.
  intros j Hj. apply list_lookup_insert_is_Some.
  assert (Hcases : owner' = owner \/ owner' = Some i \/ owner' = None).
  { destruct l; simpl in Hnext;
      repeat match type of Hnext with
             | (if ?c then _ else _) = _ => destruct c
             | match ?o with Some _ => _ | None => _ end = _ => destruct o
             end;
      try discriminate Hnext; injection Hnext as <-; auto. }
  destruct Hcases as [->|[->| ->]].
  - apply Halive. exact Hj.
  - injection Hj as <-. eexists. exact Hi.
  - discriminate Hj.
Qed.

Lemma steps_invariants owner (c c' : list (thread A) * device B) tr :
  mutex_inv owner c ->
  owner_alive owner c.1 ->
  steps controller c tr c' ->
  exists owner',
    owner_after owner tr = Some owner' /\
    mutex_inv owner' c' /\ owner_alive owner' c'.1.
Proof.
  intros Hinv Halive Hsteps. revert owner Hinv Halive.
  induction Hsteps as [c|c x c' tr c'' Hstep _ IH]; intros owner Hinv Halive.
  - exists owner. auto.
  - destruct (step_mutex_inv controller owner c c' x Hinv Hstep)
      as (owner' & Hnext & Hinv').
    pose proof (step_owner_alive owner owner' c c' x Halive Hstep Hnext).
    simpl. rewrite Hnext. apply IH; assumption.
Qed.

(** Under the invariants, as long as a thread has not returned some thread
    can step: the owner of the mutex if there is one, and otherwise any
    thread that has not returned. *)
Lemma mutex_inv_progress owner (pool : list (thread A)) (d : device B) i t :
  mutex_inv owner (pool, d) ->
  owner_alive owner pool ->
  pool !! i = Some t ->
  ~ finished t ->
  exists x c', step controller (pool, d) x c'.
Proof.
  intros [Hlocked Hpool] Halive Hi Hrunning. simpl in *.
  assert (Hheld : forall o u, pool !! o = Some u -> thread_ok true u ->
            exists x c', step controller (pool, d) x c').
  { intros o u Ho Hok. destruct u as [p|msg k]; simpl in Hok.
    - inversion Hok; subst;
        eexists (o, _), _; (eapply step_at; [exact Ho|]); constructor.
    - destruct (controller (bus d) msg) as [reply b] eqn:Hreply.
      eexists (o, _), _. eapply step_at; [exact Ho|].
      apply step_end. exact Hreply. }
  destruct owner as [o|].
  - destruct (Halive o eq_refl) as [u Ho].
    pose proof (Hpool o u Ho) as Hok.
    rewrite bool_decide_eq_true_2 in Hok by reflexivity.
    eapply Hheld; eassumption.
  - pose proof (Hpool i t Hi) as Hok.
    rewrite bool_decide_eq_false_2 in Hok by discriminate.
    destruct t as [p|msg k]; simpl in Hok; [|destruct Hok; discriminate].
    inversion Hok; subst.
    + contradiction Hrunning. eexists. reflexivity.
    + eexists (i, _), _. eapply step_at; [exact Hi|].
      apply step_lock. exact Hlocked.
    + eexists (i, _), _. eapply step_at; [exact Hi|]. constructor.
    + eexists (i, _), _. eapply step_at; [exact Hi|]. constructor.
Qed.
End Progress.

(** Threads that use one device through the two operations cannot
    deadlock: in whatever state an interleaving has left them, as long as
    one of them has not returned, one of them can step. *)
Theorem clients_never_deadlock `{arch} {B A : Type}
    (controller : B -> spi_message -> spi_reply * B)
    (pool : list (prog A)) d tr pool' d' i t :
  locked d = false ->
  Forall client pool ->
  steps controller (Running <$> pool, d) tr (pool', d') ->
  pool' !! i = Some t ->
  ~ finished t ->
  exists x c'', step controller (pool', d') x c''.
Proof.
  intros Hfree Hclients Hsteps Hi Hrunning.
  destruct (clients_mutex_inv pool d Hfree Hclients) as [Hinv Halive].
  destruct (steps_invariants controller None _ _ tr Hinv Halive Hsteps)
    as (owner & _ & Hinv' & Halive').
  eapply mutex_inv_progress; eassumption.
Qed.

(** The schedule [writer_in_flight] is one the two clients can follow. *)
Lemma writer_in_flight_steps :
  { c | steps scripted
          (Running <$> two_clients, idle_device [reply_with 0 0x62 []])
          writer_in_flight c }.
Proof.
  eexists (_, _).
  eapply steps_cons;
    [eapply step_at; [reflexivity | apply step_pm_get]|].
  eapply steps_cons;
    [eapply step_at; [reflexivity | apply step_pm_get]|].
  eapply steps_cons;
    [eapply step_at; [reflexivity | apply step_lock; reflexivity]|].
  eapply steps_cons;
    [eapply step_at; [reflexivity | apply step_begin]|].
  apply steps_nil.
Defined.

Lemma two_clients_are_clients : Forall (client (H := arm32)) two_clients.
Proof.
  constructor; [|constructor; [|constructor]].
  - apply (client_write (H := arm32)). intros rc. apply client_ret.
  - apply (client_read (H := arm32)). intros r. apply client_ret.
Qed.

(** With the writer inside [spi_sync] and the reader waiting for the
    mutex, a step is possible. *)
Lemma clients_never_deadlock_witness :
  exists x c'', step scripted (proj1_sig writer_in_flight_steps) x c''.
Proof.
  destruct writer_in_flight_steps as [[pool' d'] Hsteps] eqn:Hc. simpl.
  assert (Hreader : exists t, pool' !! 1%nat = Some t /\ ~ finished t).
  { injection Hc as <- <-. eexists. split; [reflexivity|].
    intros [a Ha]. discriminate Ha. }
  destruct Hreader as (t & Ht & Hrunning).
  exact (clients_never_deadlock (H := arm32) scripted two_clients
           (idle_device [reply_with 0 0x62 []]) writer_in_flight pool' d'
           1%nat t eq_refl two_clients_are_clients Hsteps Ht Hrunning).
Defined.

(** ** Calls are atomic on the bus *)





(** *** The shape of a call *)









Section Calls.
Context {B A : Type}.
Variable controller : B -> spi_message -> spi_reply * B.



End Calls.









(** * Probing and removing the device *)

Section LifecycleFacts.
Context {name : Type}.
Variable CYTTSP4_SPI_NAME : name.

Lemma alter_last (f : option cyttsp4_spi -> option cyttsp4_spi) h x :
  alter f (List.length h) (h ++ [x]) = h ++ [f x].
Proof.
  rewrite alter_app_r_alt by reflexivity.
  rewrite Nat.sub_diag. reflexivity.
Qed.

Lemma insert_last (h : list (option cyttsp4_spi)) x y :
  <[List.length h := y]> (h ++ [x]) = h ++ [y].
Proof.
  rewrite insert_app_r_alt by reflexivity.
  rewrite Nat.sub_diag. reflexivity.
Qed.

Lemma live_app_freed h : live (h ++ [None]) = live h.
Proof. unfold live. rewrite omap_app. simpl. apply app_nil_r. Qed.

Lemma live_app_live h ts : live (h ++ [Some ts]) = live h ++ [ts].
Proof. unfold live. rewrite omap_app. reflexivity. Qed.

(** A probe succeeds exactly when [spi_setup] does not fail, [kzalloc]
    finds memory and [cyttsp4_add_adapter] returns 0; a positive code of
    [spi_setup] is no failure.  A probe that fails returns the code of the
    step that failed, and leaves nothing behind: what was allocated is
    freed, the driver data do not point to it, and runtime PM is as
    disabled as it was. *)
Theorem failed_probe_leaves_nothing env (k : kernel name) :
  0 < disable_depth k ->
  let rc := (cyttsp4_spi_probe CYTTSP4_SPI_NAME env k).1 in
  let k' := (cyttsp4_spi_probe CYTTSP4_SPI_NAME env k).2 in
  (rc = 0 <->
   0 <= spi_setup_rc env /\ kzalloc_ok env = true /\ add_adapter_rc env = 0) /\
  (rc <> 0 ->
   (rc = spi_setup_rc env /\ rc < 0 \/
    rc = - ENOMEM /\ kzalloc_ok env = false \/
    rc = add_adapter_rc env) /\
   live (heap k') = live (heap k) /\
   (driver_data k' = driver_data k \/ driver_data k' = None) /\
   (forall p ts, driver_data k' = Some p -> heap k' !! p = Some (Some ts) ->
      heap k !! p = Some (Some ts)) /\
   disable_depth k' = disable_depth k).
Proof.
  intros Hdepth. unfold cyttsp4_spi_probe, kzalloc.
  destruct (spi_setup_rc env <? 0) eqn:Hsetup; simpl.
  - split; [split; [lia | intros (? & _); lia]|].
    intros _. split; [left; split; [reflexivity | lia]|]. auto.
  - destruct (kzalloc_ok env) eqn:Halloc; simpl.
    + destruct (add_adapter_rc env =? 0) eqn:Hadd; simpl.
      * split; [split; [intros _; repeat split; lia | reflexivity]|].
        intros Hne. contradiction Hne. reflexivity.
      * split; [split; [lia | intros (_ & _ & ?); lia]|].
        intros _. split; [auto|].
        unfold pm_runtime_enable. simpl.
        destruct (0 <? disable_depth k) eqn:Hpos; [|lia]. simpl.
        rewrite !alter_last, insert_last, live_app_freed.
        split; [reflexivity|]. split; [auto|].
        split; [discriminate | lia].
    + split; [split; [discriminate | intros (_ & ? & _); discriminate]|].
      intros _. split; [right; left; auto|]. auto.
Qed.

(** A probed device: the driver data point to the one new object, whose
    mutex is initialised and free and whose client is the device; the
    adapter has been added under the platform's name or the default one;
    runtime PM has been enabled; the word size and the mode are set. *)
Theorem successful_probe env (k : kernel name) :
  0 < disable_depth k ->
  0 <= spi_setup_rc env ->
  kzalloc_ok env = true ->
  add_adapter_rc env = 0 ->
  exists k' p,
    cyttsp4_spi_probe CYTTSP4_SPI_NAME env k = (0, k') /\
    driver_data k' = Some p /\
    heap k !! p = None /\
    heap k' !! p = Some (Some {| ts_client := true; ts_lock := MutexFree |}) /\
    live (heap k') =
      live (heap k) ++ [{| ts_client := true; ts_lock := MutexFree |}] /\
    disable_depth k' = disable_depth k - 1 /\
    adapter_calls k' =
      adapter_calls k ++
      [AddAdapter (default CYTTSP4_SPI_NAME (platform_data k))] /\
    bits_per_word k' = CY_SPI_BITS_PER_WORD /\
    mode k' = SPI_MODE_0 /\
    platform_data k' = platform_data k.
Proof.
  intros Hdepth Hsetup Halloc Hadd.
  unfold cyttsp4_spi_probe, kzalloc.
  destruct (spi_setup_rc env <? 0) eqn:Hlt; [lia|].
  rewrite Halloc, Hadd. simpl.
  eexists _, _. split; [reflexivity|].
  unfold pm_runtime_enable. simpl.
  destruct (0 <? disable_depth k) eqn:Hpos; [|lia]. simpl.
  rewrite !alter_last. simpl.
  split; [reflexivity|].
  split; [apply lookup_ge_None; reflexivity|].
  split; [apply list_lookup_middle; reflexivity|].
  split; [apply live_app_live|].
  repeat split.
Qed.

(** Removing undoes probing: after a probe that succeeded, the removal
    returns 0, deletes the adapter under the name it was added under,
    frees the object, clears the driver data and disables runtime PM
    again. *)
Theorem remove_undoes_probe env (k k' : kernel name) :
  0 < disable_depth k ->
  cyttsp4_spi_probe CYTTSP4_SPI_NAME env k = (0, k') ->
  exists k'' id,
    cyttsp4_spi_remove CYTTSP4_SPI_NAME k' = (0, k'') /\
    adapter_calls k'' = adapter_calls k ++ [AddAdapter id; DelAdapter id] /\
    live (heap k'') = live (heap k) /\
    driver_data k'' = None /\
    disable_depth k'' = disable_depth k /\
    platform_data k'' = platform_data k.
Proof.
  intros Hdepth. unfold cyttsp4_spi_probe, kzalloc.
  destruct (spi_setup_rc env <? 0) eqn:Hlt; [intros [= ? _]; lia|].
  destruct (kzalloc_ok env); [|intros [= ? _]; discriminate].
  simpl. destruct (add_adapter_rc env =? 0) eqn:Hadd; simpl;
    [|intros [= ? _]; lia].
  intros [= <-]. unfold cyttsp4_spi_remove, pm_runtime_enable. simpl.
  destruct (0 <? disable_depth k) eqn:Hpos; [|lia]. simpl.
  eexists _, _. split; [reflexivity|]. simpl.
  rewrite !alter_last, insert_last, live_app_freed, <- app_assoc.
  repeat split. lia.
Qed.
End LifecycleFacts.

(** A probe whose registration fails with -16, on a device whose platform
    data name the adapter 7: the code is returned, nothing stays
    allocated. *)
Lemma failed_probe_leaves_nothing_witness :
  (cyttsp4_spi_probe 0%nat
     {| spi_setup_rc := 0; kzalloc_ok := true; add_adapter_rc := -16 |}
     (unprobed (Some 7%nat))).1 = -16 /\
  live (heap (cyttsp4_spi_probe 0%nat
     {| spi_setup_rc := 0; kzalloc_ok := true; add_adapter_rc := -16 |}
     (unprobed (Some 7%nat))).2) = [].
Proof.
  destruct (failed_probe_leaves_nothing 0%nat
              {| spi_setup_rc := 0; kzalloc_ok := true; add_adapter_rc := -16 |}
              (unprobed (Some 7%nat)) eq_refl) as [_ Hfail].
  destruct Hfail as (_ & Hlive & _); [discriminate|].
  split; [reflexivity | exact Hlive].
Defined.

(** A probe that succeeds on a device without platform data: the adapter
    is added under the default name. *)
Lemma successful_probe_witness :
  exists k' p,
    cyttsp4_spi_probe 0%nat
      {| spi_setup_rc := 0; kzalloc_ok := true; add_adapter_rc := 0 |}
      (unprobed None) = (0, k') /\
    driver_data k' = Some p /\
    heap k' !! p = Some (Some {| ts_client := true; ts_lock := MutexFree |}) /\
    adapter_calls k' = [AddAdapter 0%nat].
Proof.
  destruct (successful_probe 0%nat
              {| spi_setup_rc := 0; kzalloc_ok := true; add_adapter_rc := 0 |}
              (unprobed None) eq_refl)
    as (k' & p & Hrun & Hdata & _ & Hobj & _ & _ & Hcalls & _);
    [vm_compute; discriminate | reflexivity | reflexivity |].
  exists k', p. repeat split; assumption.
Defined.

(** Probe, then remove, on a device whose platform data name the adapter
    7. *)
Lemma remove_undoes_probe_witness :
  exists k'' id,
    cyttsp4_spi_remove 0%nat
      (cyttsp4_spi_probe 0%nat
         {| spi_setup_rc := 0; kzalloc_ok := true; add_adapter_rc := 0 |}
         (unprobed (Some 7%nat))).2 = (0, k'') /\
    adapter_calls k'' = [AddAdapter id; DelAdapter id] /\
    live (heap k'') = [] /\
    disable_depth k'' = 1.
Proof.
  destruct (remove_undoes_probe 0%nat
              {| spi_setup_rc := 0; kzalloc_ok := true; add_adapter_rc := 0 |}
              (unprobed (Some 7%nat))
              (cyttsp4_spi_probe 0%nat
                 {| spi_setup_rc := 0; kzalloc_ok := true; add_adapter_rc := 0 |}
                 (unprobed (Some 7%nat))).2 eq_refl eq_refl)
    as (k'' & id & Hrun & Hcalls & Hlive & _ & Hdepth & _).
  exists k'', id. repeat split; assumption.
Defined.

(** * The debug dump *)

Lemma hex_digit_range n : 0 <= n <= 15 -> 48 <= hex_digit n <= 102.
Proof. unfold hex_digit. intros. destruct (n <? 10) eqn:?; lia. Qed.

Lemma unhex_hex_digit n : 0 <= n <= 15 -> unhex_digit (hex_digit n) = n.
Proof.
  unfold unhex_digit, hex_digit. intros.
  destruct (n <? 10) eqn:Hn.
  - destruct (48 + n <? 58) eqn:?; lia.
  - destruct (87 + n <? 58) eqn:?; lia.
Qed.

Lemma to_u8_nibbles v :
  0 <= to_u8 v / 16 <= 15 /\ 0 <= to_u8 v mod 16 <= 15 /\
  16 * (to_u8 v / 16) + to_u8 v mod 16 = to_u8 v.
Proof.
  pose proof (to_u8_range v).
  pose proof (Z.div_mod (to_u8 v) 16).
  pose proof (Z.mod_pos_bound (to_u8 v) 16).
  assert (0 <= to_u8 v / 16) by (apply Z.div_pos; lia).
  assert (to_u8 v / 16 < 16) by (apply Z.div_lt_upper_bound; lia).
  lia.
Qed.

Lemma hex_dump_cons v bytes :
  hex_dump (v :: bytes) = fmt_02x_space v ++ hex_dump bytes.
Proof. reflexivity. Qed.

Lemma length_hex_dump bytes :
  List.length (hex_dump bytes) = (3 * List.length bytes)%nat.
Proof.
  induction bytes as [|v bytes IH]; [reflexivity|].
  rewrite hex_dump_cons, length_app, IH. simpl. lia.
Qed.

(** A dump has no NUL in it: the string of a buffer that starts with a
    dump and a NUL is the dump. *)
Lemma c_string_hex_dump bytes rest :
  c_string (hex_dump bytes ++ 0 :: rest) = hex_dump bytes.
Proof.
  induction bytes as [|v bytes IH]; [reflexivity|].
  rewrite hex_dump_cons, <- app_assoc.
  destruct (to_u8_nibbles v) as (Hhi & Hlo & _).
  pose proof (hex_digit_range _ Hhi). pose proof (hex_digit_range _ Hlo).
  unfold fmt_02x_space. cbn [app c_string].
  destruct (hex_digit (to_u8 v / 16) =? 0) eqn:?; [lia|].
  destruct (hex_digit (to_u8 v mod 16) =? 0) eqn:?; [lia|].
  change (32 =? 0) with false. cbv iota.
  rewrite IH. reflexivity.
Qed.

(** The dump can be read back: different data give different dumps. *)
Lemma undump_hex_dump bytes : undump (hex_dump bytes) = to_u8 <$> bytes.
Proof.
  induction bytes as [|v bytes IH]; [reflexivity|].
  rewrite hex_dump_cons. unfold fmt_02x_space. cbn [app undump].
  destruct (to_u8_nibbles v) as (Hhi & Hlo & Hv).
  rewrite !unhex_hex_digit, Hv, IH by assumption. reflexivity.
Qed.

Lemma pr_buf_loop_S count i k buf b :
  pr_buf_loop (S count) i k buf b =
    if sizeof_b <? Z.of_nat k then None
    else
      v ← buf !! i;
      pr_buf_loop count (S i) (k + 3)%nat buf
        (snprintf b k (sizeof_b - Z.of_nat k) (fmt_02x_space v)).
Proof. reflexivity. Qed.

(** One round of the loop, [count] times: the dump grows by the bytes
    gone through and stays terminated, within the buffer. *)
Lemma pr_buf_loop_spec count : forall i buf pre rest,
  List.length pre = (3 * i)%nat ->
  Z.of_nat (List.length (pre ++ rest)) = sizeof_b ->
  (i + count <= List.length buf)%nat ->
  Z.of_nat (i + count) <= CY_SPI_DATA_SIZE ->
  exists rest',
    pr_buf_loop count i (3 * i) buf (pre ++ rest) =
      Some (pre ++ hex_dump (take count (drop i buf)) ++ rest') /\
    Z.of_nat (List.length (pre ++ hex_dump (take count (drop i buf)) ++ rest')) =
      sizeof_b /\
    (count = 0%nat -> rest' = rest) /\
    ((0 < count)%nat -> exists r, rest' = 0 :: r).
Proof.
  induction count as [|count IH]; intros i buf pre rest Hpre Hsize Hbuf Hmax.
  - exists rest. simpl. repeat split; [assumption | lia].
  - unfold sizeof_b, CY_SPI_DATA_SIZE in *.
    rewrite length_app in Hsize.
    destruct (buf !! i) as [v|] eqn:Hv;
      [|apply lookup_ge_None in Hv; lia].
    rewrite pr_buf_loop_S. unfold sizeof_b, CY_SPI_DATA_SIZE.
    destruct (3 * 256 * 3 + 1 <? Z.of_nat (3 * i)) eqn:Hk;
      [apply Z.ltb_lt in Hk; lia|].
    rewrite Hv. cbn [mbind option_bind].
    assert (Hstep : snprintf (pre ++ rest) (3 * i)
                      (3 * 256 * 3 + 1 - Z.of_nat (3 * i)) (fmt_02x_space v) =
                    (pre ++ fmt_02x_space v) ++ 0 :: drop 4 rest).
    { unfold snprintf.
      destruct (_ =? 0) eqn:Hn; [apply Z.eqb_eq in Hn; lia|].
      rewrite (take_ge (fmt_02x_space v)) by (simpl; lia).
      rewrite take_app_length' by (symmetry; assumption).
      rewrite drop_app_ge by (simpl; lia).
      simpl List.length. replace (3 * i + 4 - List.length pre)%nat with 4%nat by lia.
      rewrite <- !app_assoc. reflexivity. }
    rewrite Hstep.
    replace (3 * i + 3)%nat with (3 * S i)%nat by lia.
    destruct (IH (S i) buf (pre ++ fmt_02x_space v) (0 :: drop 4 rest))
      as (rest' & Hrun & Hlen & Hzero & Hpos).
    + rewrite length_app. simpl. lia.
    + rewrite !length_app. simpl. rewrite length_drop. lia.
    + lia.
    + lia.
    + rewrite (drop_S _ _ _ Hv). simpl take.
      rewrite hex_dump_cons.
      rewrite <- !(app_assoc pre) in Hrun. rewrite <- !(app_assoc pre) in Hlen.
      exists rest'. rewrite <- !app_assoc.
      split; [exact Hrun|]. split; [exact Hlen|].
      split; [discriminate|]. intros _.
      destruct count as [|count'].
      * rewrite Hzero by reflexivity. eexists. reflexivity.
      * apply Hpos. lia.
Qed.

(** With [VERBOSE_DEBUG], a dump of 1 to [CY_SPI_DATA_SIZE] bytes stays
    within the static buffer, whose size is exactly what the largest dump
    and its NUL take, and hands [dev_dbg] two hexadecimal digits and a
    space for each byte.  The buffer is not cleared between calls: a dump
    of no bytes that follows hands over the previous dump again. *)
Theorem dump_fits_static_buffer b buf size :
  1 <= size <= CY_SPI_DATA_SIZE ->
  (Z.to_nat size <= List.length buf)%nat ->
  Z.of_nat (List.length b) = sizeof_b ->
  exists b',
    _cyttsp4_spi_pr_buf b buf size =
      Some (b', hex_dump (take (Z.to_nat size) buf)) /\
    Z.of_nat (List.length b') = sizeof_b /\
    forall buf',
      _cyttsp4_spi_pr_buf b' buf' 0 =
        Some (b', hex_dump (take (Z.to_nat size) buf)).
Proof.
  intros Hsize Hbuf Hb. unfold _cyttsp4_spi_pr_buf.
  unfold CY_SPI_DATA_SIZE in Hsize.
  rewrite (to_int_small size) by (unfold INT_MIN, INT_MAX; lia).
  rewrite to_unsigned_small by (unfold INT_MAX; lia).
  destruct (pr_buf_loop_spec (Z.to_nat size) 0 buf [] b)
    as (rest' & Hrun & Hlen & _ & Hnul);
    [reflexivity | assumption | lia | unfold CY_SPI_DATA_SIZE; lia |].
  destruct Hnul as [r ->]; [lia|].
  simpl in Hrun, Hlen. change (3 * 0)%nat with 0%nat in Hrun.
  rewrite Hrun. simpl.
  eexists. rewrite c_string_hex_dump.
  split; [reflexivity|]. split; [exact Hlen|].
  intros buf'. rewrite c_string_hex_dump. reflexivity.
Qed.

(** A dump of the two header bytes [0x00; 0x1f] into the zeroed buffer:
    the text is "00 1f ". *)
Lemma dump_fits_static_buffer_witness :
  exists b',
    _cyttsp4_spi_pr_buf b_zeroed [0x00; 0x1f] 2 =
      Some (b', [48; 48; 32; 49; 102; 32]) /\
    forall buf',
      _cyttsp4_spi_pr_buf b' buf' 0 = Some (b', [48; 48; 32; 49; 102; 32]).
Proof.
  destruct (dump_fits_static_buffer b_zeroed [0x00; 0x1f] 2)
    as (b' & Hrun & _ & Hagain);
    [vm_compute; split; discriminate | simpl; lia | reflexivity |].
  exists b'. split; [exact Hrun | exact Hagain].
Defined.

(** The text of a dump is a function of the low 8 bits of the bytes. *)
Lemma hex_dump_to_u8 bytes : hex_dump (to_u8 <$> bytes) = hex_dump bytes.
Proof.
  induction bytes as [|v bytes IH]; [reflexivity|].
  rewrite fmap_cons, !hex_dump_cons, IH.
  unfold fmt_02x_space. rewrite to_u8_idem. reflexivity.
Qed.

(** The text handed to [dev_dbg] by a dump of 1 to [CY_SPI_DATA_SIZE]
    bytes. *)
Lemma pr_buf_text b buf size :
  1 <= size <= CY_SPI_DATA_SIZE ->
  (Z.to_nat size <= List.length buf)%nat ->
  Z.of_nat (List.length b) = sizeof_b ->
  snd <$> _cyttsp4_spi_pr_buf b buf size =
    Some (hex_dump (take (Z.to_nat size) buf)).
Proof.
  intros Hsize Hbuf Hb. unfold _cyttsp4_spi_pr_buf.
  unfold CY_SPI_DATA_SIZE in Hsize.
  rewrite (to_int_small size) by (unfold INT_MIN, INT_MAX; lia).
  rewrite to_unsigned_small by (unfold INT_MAX; lia).
  destruct (pr_buf_loop_spec (Z.to_nat size) 0 buf [] b)
    as (rest' & Hrun & _ & _ & Hnul);
    [reflexivity | assumption | lia | unfold CY_SPI_DATA_SIZE; lia |].
  destruct Hnul as [r ->]; [lia|].
  simpl in Hrun. change (3 * 0)%nat with 0%nat in Hrun.
  rewrite Hrun. simpl. rewrite c_string_hex_dump. reflexivity.
Qed.

(** With [VERBOSE_DEBUG], the dump is faithful for every size from 1 to
    [CY_SPI_DATA_SIZE]: two calls of [_cyttsp4_spi_pr_buf] with the same
    size hand the same text to [dev_dbg] exactly when the two buffers hold
    the same bytes in their first [size] places, whatever an earlier call
    has left in the static buffer [b]. *)
Theorem dump_text_determines_bytes b1 b2 buf1 buf2 size :
  1 <= size <= CY_SPI_DATA_SIZE ->
  (Z.to_nat size <= List.length buf1)%nat ->
  (Z.to_nat size <= List.length buf2)%nat ->
  Z.of_nat (List.length b1) = sizeof_b ->
  Z.of_nat (List.length b2) = sizeof_b ->
  snd <$> _cyttsp4_spi_pr_buf b1 buf1 size =
    snd <$> _cyttsp4_spi_pr_buf b2 buf2 size <->
  to_u8 <$> take (Z.to_nat size) buf1 = to_u8 <$> take (Z.to_nat size) buf2.
Proof.
  intros Hsize Hbuf1 Hbuf2 Hb1 Hb2.
  rewrite !pr_buf_text by assumption.
  split.
  - intros [= Hdump]. rewrite <- !undump_hex_dump, Hdump. reflexivity.
  - intros Hbytes.
    rewrite <- (hex_dump_to_u8 (take _ buf1)), Hbytes, hex_dump_to_u8.
    reflexivity.
Qed.

(** Two dumps of two bytes with the same text, the second into the buffer
    the first has left: the bytes are the same, one of them being written
    with a value that does not fit a byte. *)
Lemma dump_text_determines_bytes_witness :
  to_u8 <$> [0x62; 0x11f] = to_u8 <$> [0x62; 0x1f].
Proof.
  apply (dump_text_determines_bytes b_zeroed
           (snprintf b_zeroed 0 sizeof_b [54; 50; 32; 49; 102; 32])
           [0x62; 0x11f] [0x62; 0x1f] 2);
    [vm_compute; split; discriminate | simpl; lia | simpl; lia
    | reflexivity | reflexivity | reflexivity].
Defined.
